(** * FuzzyCPS: the cost-per-search calculator of [CPS_Viz_v2.py]

    A shallow embedding of [compute_cps] and of the part of [main] that
    drives it (the empty-table guard, the extraction of the three columns,
    the evaluation at the current search volume and the sweep over a range
    of search volumes), followed by the properties the specification
    states about them.

    Numbers.  [compute_cps] is duck-typed: it uses [sum], [+], [*] and [/]
    of whatever numbers it is handed.  The embedding keeps that shape: it
    is written once over an interface [PyNum] of those operations, with two
    instances, the exact rationals [Qc] and the binary64 floats.  What
    depends on the shape of the code only is proved for every instance;
    what depends on the laws of arithmetic is proved where they hold, on
    exact numbers, and says nothing about the rounding of floats; the
    numeric scenario of the specification is evaluated on both instances.

    Effects.  [compute_cps] either returns or raises.  [main] is modelled
    from the data editor on, by the trace of what it reports through
    [st.error], the cost per search and the chart it shows, and the calls
    of [compute_cps] it makes; titles, captions and the summary of the
    inputs are left out. *)

From Stdlib Require Import String Bool ZArith QArith Qcanon Qround List Lia.
From Stdlib Require Import Permutation Sorted Field Floats.
Import ListNotations.

Set Implicit Arguments.
#[global] Set Warnings "-inexact-float".

(** ** Python results: a value or a raised exception *)

Inductive exception : Type :=
| ValueError (msg : string)
| ZeroDivisionError
| ConversionError.          (* whatever pandas' [astype(float)] raises *)

Inductive result (A : Type) : Type :=
| Ok (a : A)
| Raise (e : exception).

Arguments Ok {A} a.
Arguments Raise {A} e.

Definition rbind {A B : Type} (r : result A) (k : A -> result B) : result B :=
  match r with
  | Ok a => k a
  | Raise e => Raise e
  end.

Declare Scope py_scope.
Delimit Scope py_scope with py.
Notation "x <- r ;; k" := (rbind r (fun x => k))
  (at level 61, r at next level, right associativity) : py_scope.

(** ** The numbers [compute_cps] computes with *)

Class PyNum (num : Type) : Type := {
  zero : num;                   (* the [0] that [sum] starts from *)
  add : num -> num -> num;      (* [+] *)
  mul : num -> num -> num;      (* [*] *)
  quot : num -> num -> num;     (* [/] on a divisor that is not zero *)
  is_zero : num -> bool;        (* the divisor test of [/] *)
  of_int : Z -> num             (* a Python [int] used as a number *)
}.

Section Calculator.

Context {num : Type} `{PyNum num}.

Local Open Scope py_scope.

(** [sum(xs)]: start from [0] and add the items from left to right. *)
Definition py_sum (xs : list num) : num := fold_left add xs zero.

(** [a / b]: raises [ZeroDivisionError] on a zero divisor. *)
Definition truediv (a b : num) : result num :=
  if is_zero b then Raise ZeroDivisionError else Ok (quot a b).

(** [zip(C_i_list, A_i_list)] followed by the product of each pair. *)
Definition products (C_i_list A_i_list : list num) : list num :=
  map (fun '(C_i, A_i) => mul C_i A_i) (combine C_i_list A_i_list).

Definition length_error : string :=
  "P_i_list, C_i_list, and A_i_list must be of the same length.".

(** [compute_cps], lines 5-21. *)
Definition compute_cps (P_i_list C_i_list A_i_list : list num) (N_s : num)
  : result num :=
  if negb ((length P_i_list =? length C_i_list)%nat
           && (length C_i_list =? length A_i_list)%nat)
  then Raise (ValueError length_error)
  else
    let total_platform_costs := py_sum P_i_list in
    platform_costs_per_search <- truediv total_platform_costs N_s ;;
    let api_call_costs_per_search := py_sum (products C_i_list A_i_list) in
    let cps := add platform_costs_per_search api_call_costs_per_search in
    Ok cps.

End Calculator.

(** ** Exact arithmetic: the rationals in lowest terms *)

#[export] Instance Qc_PyNum : PyNum Qc := {
  zero := Q2Qc 0;
  add := Qcplus;
  mul := Qcmult;
  quot := Qcdiv;
  is_zero := fun x => Qc_eq_bool x (Q2Qc 0);
  of_int := fun z => Q2Qc (inject_Z z)
}.

(** ** Binary64: the numbers of Python's [float]

    [main] hands [compute_cps] lists of [float] and an [int] search
    volume.  The operations are those of IEEE 754 binary64 with rounding to
    nearest even; an [int] operand is converted by correct rounding.  An
    [int] beyond the range of [float] is not modelled: Python raises
    [OverflowError] when it meets one in [/], here it rounds to
    infinity.  The sliders and number inputs of [main] stay far below. *)

#[export] Instance float_PyNum : PyNum float := {
  zero := 0%float;
  add := PrimFloat.add;
  mul := PrimFloat.mul;
  quot := PrimFloat.div;
  is_zero := fun x => PrimFloat.eqb x 0%float;
  of_int := fun z => SF2Prim (binary_normalize prec emax z 0 false)
}.

Module Binary64.

(** From CPython 3.12 on, [sum] over floats carries a compensation term
    (Neumaier's variant of Kahan's summation) that is added at the end. *)
Definition compensated_step (state : float * float) (x : float) : float * float :=
  let (f_result, c) := state in
  let t := (f_result + x)%float in
  if PrimFloat.leb (PrimFloat.abs x) (PrimFloat.abs f_result)
  then (t, (c + ((f_result - t) + x))%float)
  else (t, (c + ((x - t) + f_result))%float).

Definition compensated_sum (xs : list float) : float :=
  let (f_result, c) := fold_left compensated_step xs (0%float, 0%float) in
  if negb (PrimFloat.eqb c 0%float) && PrimFloat.is_finite c
  then (f_result + c)%float
  else f_result.

(** The two records of the scenario as [main] extracts them: columns of
    [float], each literal rounded to the nearest binary64 number. *)
Definition P_i_list : list float := [30; 75]%float.
Definition C_i_list : list float := [0.0088; 0.02]%float.
Definition A_i_list : list float := [2; 2]%float.

End Binary64.

(** ** The builtins [int] and [range] used by the sweep *)

(** The sweep bounds are Python numbers ([int] or finite [float]); every
    such number is a rational, and comparison and [int()] are exact on
    them. *)

Definition Qlt_bool (x y : Q) : bool := negb (Qle_bool y x).

(** [int(x)]: truncation towards zero. *)
Definition py_int (x : Q) : Z := Z.quot (Qnum x) (Zpos (Qden x)).

Definition range_length (start stop step : Z) : Z :=
  if (0 <? step)%Z && (start <? stop)%Z then (stop - start - 1) / step + 1
  else if (step <? 0)%Z && (stop <? start)%Z then (start - stop - 1) / (- step) + 1
  else 0.

Definition range_error : string := "range() arg 3 must not be zero".

(** [list(range(start, stop, step))]. *)
Definition py_range (start stop step : Z) : result (list Z) :=
  if (step =? 0)%Z then Raise (ValueError range_error)
  else Ok (map (fun i => start + Z.of_nat i * step)%Z
               (seq 0 (Z.to_nat (range_length start stop step)))).

(** ** [main]: what it shows and which calculations it starts

    [main] is run once per interaction.  Its behaviour from the data editor
    on is a trace, in program order, of the error messages, the cost per
    search and the chart handed to Streamlit and of the invocations of
    [compute_cps]. *)

Section Main.

Context {num : Type} `{PyNum num}.

Inductive event : Type :=
| Invoke (N_s : Z)                                   (* [compute_cps(..., N_s)] is entered *)
| StError (msg : string) (e : option exception)      (* [st.error(f"msg{e}")] *)
| StCps (cps : num)                                  (* the CPS paragraph, lines 120-124 *)
| StChart (plot_data : list (Z * num)) (current_point : Z * num).
                                                     (* the chart, lines 131-156 *)

Definition M (A : Type) : Type := (result A * list event)%type.

Definition ret {A : Type} (a : A) : M A := (Ok a, []).

Definition bind {A B : Type} (m : M A) (k : A -> M B) : M B :=
  match m with
  | (Ok a, t) => let (r, t') := k a in (r, t ++ t')
  | (Raise e, t) => (Raise e, t)
  end.

Definition emit (ev : event) : M unit := (Ok tt, [ev]).

Definition lift {A : Type} (r : result A) : M A := (r, []).

(** [try: body except Exception as e: handler(e)] *)
Definition try_except {A : Type} (body : M A) (handler : exception -> M A) : M A :=
  match body with
  | (Ok a, t) => (Ok a, t)
  | (Raise e, t) => let (r, t') := handler e in (r, t ++ t')
  end.

Declare Scope ui_scope.
Delimit Scope ui_scope with ui.
Notation "x <- m ;; k" := (bind m (fun x => k))
  (at level 61, m at next level, right associativity) : ui_scope.
Notation "m ;; k" := (bind m (fun _ => k))
  (at level 61, right associativity) : ui_scope.

Local Open Scope ui_scope.

(** [[f(x) for x in xs]]: the elements in order; the first exception
    ends the comprehension. *)
Fixpoint comprehension {A B : Type} (f : A -> M B) (xs : list A) : M (list B) :=
  match xs with
  | [] => ret []
  | x :: xs' => y <- f x ;; ys <- comprehension f xs' ;; ret (y :: ys)
  end.

(** A call of [compute_cps] from [main], with an [int] search volume. *)
Definition invoke (P_i_list C_i_list A_i_list : list num) (N_s : Z) : M num :=
  emit (Invoke N_s) ;; lift (compute_cps P_i_list C_i_list A_i_list (of_int N_s)).

Definition empty_error : string := "Please enter at least one platform.".
Definition processing_error : string := "Error processing platform data: ".
Definition invalid_range_error : string :=
  "Please ensure that Minimum N_s < Maximum N_s and N_s Step Size > 0.".
Definition calculation_error : string := "An error occurred during calculation: ".

(** Lines 130-156: one calculation per swept value, then the chart. *)
Definition plot_range (P_i_list C_i_list A_i_list : list num) (N_s : Z) (cps : num)
           (N_s_values : list Z) : M unit :=
  cps_values <- comprehension (invoke P_i_list C_i_list A_i_list) N_s_values ;;
  let plot_data := combine N_s_values cps_values in
  let current_point := (N_s, cps) in
  emit (StChart plot_data current_point).

(** The body of [if show_cps_range:], lines 128-166: the sweep. *)
Definition show_range (P_i_list C_i_list A_i_list : list num) (N_s : Z) (cps : num)
           (N_s_min N_s_max N_s_step : Q) : M unit :=
  if Qlt_bool N_s_min N_s_max && Qlt_bool (0 # 1) N_s_step then
    N_s_values <- lift (py_range (py_int N_s_min) (py_int N_s_max + 1)
                                 (py_int N_s_step)) ;;
    plot_range P_i_list C_i_list A_i_list N_s cps N_s_values
  else
    emit (StError invalid_range_error None).

(** The edited table: a cell holds a number or something that
    [astype(float)] rejects.  Which cells pandas rejects is not decided
    here: a blank cell, which [astype(float)] turns into NaN, is a number
    in this reading. *)
Record row : Type := {
  Platform_Name : string;
  Fixed_Cost : option num;
  Cost_per_API_Call : option num;
  API_Calls_per_Search : option num
}.

Definition DataFrame : Type := list row.

(** [df.empty]: the table has four columns, it is empty when it has no row. *)
Definition empty (df : DataFrame) : bool :=
  match df with [] => true | _ :: _ => false end.

(** [column.astype(float).tolist()] *)
Fixpoint astype_float (column : list (option num)) : result (list num) :=
  match column with
  | [] => Ok []
  | Some x :: rest => rbind (astype_float rest) (fun xs => Ok (x :: xs))
  | None :: _ => Raise ConversionError
  end.

Definition extract (df : DataFrame) : result (list num * list num * list num) :=
  rbind (astype_float (map Fixed_Cost df)) (fun P_i_list =>
  rbind (astype_float (map Cost_per_API_Call df)) (fun C_i_list =>
  rbind (astype_float (map API_Calls_per_Search df)) (fun A_i_list =>
  Ok (P_i_list, C_i_list, A_i_list)))).

(** [main], lines 95-168.  The arguments are the widget values: the
    slider [N_s], the checkbox, the three number inputs (read only when
    the checkbox is ticked) and the edited table. *)
Definition main (N_s : Z) (show_cps_range : bool) (N_s_min N_s_max N_s_step : Q)
           (edited_df : DataFrame) : M unit :=
  if empty edited_df then
    emit (StError empty_error None)
  else
    match extract edited_df with
    | Raise e => emit (StError processing_error (Some e))
    | Ok (P_i_list, C_i_list, A_i_list) =>
        try_except
          (cps <- invoke P_i_list C_i_list A_i_list N_s ;;
           emit (StCps cps) ;;
           if show_cps_range
           then show_range P_i_list C_i_list A_i_list N_s cps N_s_min N_s_max N_s_step
           else ret tt)
          (fun e => emit (StError calculation_error (Some e)))
    end.

End Main.

Arguments event num : clear implicits.
Arguments M num A : clear implicits.
Arguments row num : clear implicits.
Arguments DataFrame num : clear implicits.

(** ** The calculator as the specification words it (section 4.1) *)

Section Specification.

Context {num : Type} `{PyNum num}.

Record PlatformCostRecord : Type := {
  name : string;
  fixedCost : num;
  costPerCall : num;
  callsPerSearch : num
}.

Definition totalFixedCost (records : list PlatformCostRecord) : num :=
  py_sum (map fixedCost records).

Definition fixedCostPerSearch (records : list PlatformCostRecord) (searchVolume : num) : num :=
  quot (totalFixedCost records) searchVolume.

Definition variableCostPerSearch (records : list PlatformCostRecord) : num :=
  py_sum (map (fun record => mul (costPerCall record) (callsPerSearch record)) records).

Definition computeCPS (records : list PlatformCostRecord) (searchVolume : num) : num :=
  add (fixedCostPerSearch records searchVolume) (variableCostPerSearch records).

(** The three parallel lists the code keeps for a collection of records,
    and the records that three parallel lists stand for. *)
Definition P_of (records : list PlatformCostRecord) : list num := map fixedCost records.
Definition C_of (records : list PlatformCostRecord) : list num := map costPerCall records.
Definition A_of (records : list PlatformCostRecord) : list num := map callsPerSearch records.

Fixpoint records_of (P_i_list C_i_list A_i_list : list num) : list PlatformCostRecord :=
  match P_i_list, C_i_list, A_i_list with
  | P_i :: Ps, C_i :: Cs, A_i :: As =>
      {| name := EmptyString; fixedCost := P_i; costPerCall := C_i; callsPerSearch := A_i |}
        :: records_of Ps Cs As
  | _, _, _ => []
  end.

End Specification.

Arguments PlatformCostRecord num : clear implicits.

(** ** The numeric scenario of the specification (section 8)

    The first two rows of [default_data], over the exact rationals. *)

Module Scenario.

Definition records : list (PlatformCostRecord Qc) :=
  [ {| name := "Clarifai"; fixedCost := Q2Qc 30;
       costPerCall := Q2Qc 0.0088; callsPerSearch := Q2Qc 2 |};
    {| name := "SerpAPI"; fixedCost := Q2Qc 75;
       costPerCall := Q2Qc 0.02; callsPerSearch := Q2Qc 2 |} ].

Definition P_i_list : list Qc := P_of records.
Definition C_i_list : list Qc := C_of records.
Definition A_i_list : list Qc := A_of records.

Definition searchVolume : Qc := Q2Qc 5000.

(** The same two rows as they sit in the edited table. *)
Definition edited_df : DataFrame Qc :=
  map (fun r => {| Platform_Name := name r;
                   Fixed_Cost := Some (fixedCost r);
                   Cost_per_API_Call := Some (costPerCall r);
                   API_Calls_per_Search := Some (callsPerSearch r) |}) records.

End Scenario.

(** ** Costs on which the rounding of floats shows *)

Module Rounding.

(** Three platforms with fixed costs 0.1, 0.2 and 0.3 and no API calls. *)
Definition records : list (PlatformCostRecord float) :=
  [ {| name := "a"; fixedCost := 0.1%float;
       costPerCall := 0%float; callsPerSearch := 0%float |};
    {| name := "b"; fixedCost := 0.2%float;
       costPerCall := 0%float; callsPerSearch := 0%float |};
    {| name := "c"; fixedCost := 0.3%float;
       costPerCall := 0%float; callsPerSearch := 0%float |} ].

(** Costs of very different sizes: 1, 2^-53 and twice 2^-106. *)
Definition spread_costs : list float :=
  [1; 0x1p-53; 0x1p-106; 0x1p-106]%float.

Definition spread_costs_reordered : list float :=
  [1; 0x1p-106; 0x1p-106; 0x1p-53]%float.

End Rounding.

(** ** Reading a trace *)

Section Traces.

Context {num : Type} `{PyNum num}.

(** The search volumes [compute_cps] was invoked with, in order. *)
Fixpoint invocations (t : list (event num)) : list Z :=
  match t with
  | [] => []
  | Invoke N_s :: t' => N_s :: invocations t'
  | _ :: t' => invocations t'
  end.

(** The charts that were drawn: their series of points. *)
Fixpoint charts (t : list (event num)) : list (list (Z * num)) :=
  match t with
  | [] => []
  | StChart plot_data _ :: t' => plot_data :: charts t'
  | _ :: t' => charts t'
  end.

(** The value of the formula at an [int] search volume that is not zero. *)
Definition cps_at (P_i_list C_i_list A_i_list : list num) (N_s : Z) : num :=
  add (quot (py_sum P_i_list) (of_int N_s)) (py_sum (products C_i_list A_i_list)).

End Traces.

(** ** Reading the messages of a trace *)

Section Messages.

Context {num : Type} `{PyNum num}.

(** What was shown through [st.error], in order: the text and the
    exception formatted into it. *)
Fixpoint errors (t : list (event num)) : list (string * option exception) :=
  match t with
  | [] => []
  | StError msg e :: t' => (msg, e) :: errors t'
  | _ :: t' => errors t'
  end.

(** The costs per search that were shown, in order. *)
Fixpoint shown (t : list (event num)) : list num :=
  match t with
  | [] => []
  | StCps cps :: t' => cps :: shown t'
  | _ :: t' => shown t'
  end.

End Messages.

(** The reports [main] has a call of [st.error] for: the empty table, a
    cell that is not a number, a division by zero, the step that [range]
    refuses, and the invalid range. *)
Definition reportable_errors : list (string * option exception) :=
  [ (empty_error, None);
    (processing_error, Some ConversionError);
    (calculation_error, Some ZeroDivisionError);
    (calculation_error, Some (ValueError range_error));
    (invalid_range_error, None) ].

(** ** The sweep as the specification words it (section 4.2) *)

(** The sequence [first, first + step, ...] of [n] terms. *)
Definition arithmetic_sequence (first step : Z) (n : nat) : list Z :=
  map (fun k => first + Z.of_nat k * step)%Z (seq 0 n).

(** [int()] said without division: the integer part, towards zero. *)
Definition integer_part (x : Q) : Z :=
  if Qle_bool (0 # 1) x then Qfloor x else Qceiling x.

(** The reading of "a search volume of zero or less makes the calculator
    fail", in its most generous form: any exception counts as the failure. *)
Definition rejects_volume (P C A : list Qc) (N_s : Qc) : Prop :=
  exists e : exception, compute_cps P C A N_s = Raise e.

(** Closed equations between rationals in lowest terms. *)
Ltac qc_eval := apply Qc_is_canon; vm_compute; reflexivity.

(** * Properties *)

(** ** The calculator, for every kind of number *)

Section CalculatorFacts.

Context {num : Type} `{PyNum num}.

Lemma compute_cps_aligned (P C A : list num) (N_s : num) :
  length P = length C -> length C = length A ->
  compute_cps P C A N_s =
    rbind (truediv (py_sum P) N_s)
          (fun fixed => Ok (add fixed (py_sum (products C A)))).
Proof.
  intros HPC HCA. unfold compute_cps.
  rewrite HPC, HCA, Nat.eqb_refl. reflexivity.
Qed.

Lemma compute_cps_misaligned (P C A : list num) (N_s : num) :
  length P <> length C \/ length C <> length A ->
  compute_cps P C A N_s = Raise (ValueError length_error).
Proof.
  intros Hbad. unfold compute_cps.
  destruct (Nat.eqb_spec (length P) (length C)) as [HPC | HPC];
    destruct (Nat.eqb_spec (length C) (length A)) as [HCA | HCA];
    simpl; try reflexivity.
  destruct Hbad; contradiction.
Qed.

Lemma compute_cps_value (P C A : list num) (N_s : num) :
  length P = length C -> length C = length A -> is_zero N_s = false ->
  compute_cps P C A N_s = Ok (add (quot (py_sum P) N_s) (py_sum (products C A))).
Proof.
  intros HPC HCA HN. rewrite compute_cps_aligned by assumption.
  unfold truediv. rewrite HN. reflexivity.
Qed.

Lemma compute_cps_zero_volume (P C A : list num) (N_s : num) :
  length P = length C -> length C = length A -> is_zero N_s = true ->
  compute_cps P C A N_s = Raise ZeroDivisionError.
Proof.
  intros HPC HCA HN. rewrite compute_cps_aligned by assumption.
  unfold truediv. rewrite HN. reflexivity.
Qed.

(** [zip] loses nothing on lists of one length: the products are those
    of the records [0 .. n-1]. *)
Lemma products_by_index (C A : list num) :
  length C = length A ->
  products C A =
    map (fun i => mul (nth i C zero) (nth i A zero)) (seq 0 (length C)).
Proof.
  revert A. induction C as [| c C IH]; intros [| a A] Hlen;
    simpl in *; try discriminate; try reflexivity.
  unfold products in *. simpl. f_equal.
  rewrite <- seq_shift, map_map. apply IH. congruence.
Qed.

Lemma records_of_P (P C A : list num) :
  length P = length C -> length C = length A -> P_of (records_of P C A) = P.
Proof.
  revert C A. induction P as [| p P IH]; intros [| c C] [| a A] H1 H2;
    simpl in *; try discriminate; try reflexivity.
  f_equal. apply IH; congruence.
Qed.

Lemma records_of_C (P C A : list num) :
  length P = length C -> length C = length A -> C_of (records_of P C A) = C.
Proof.
  revert C A. induction P as [| p P IH]; intros [| c C] [| a A] H1 H2;
    simpl in *; try discriminate; try reflexivity.
  f_equal. apply IH; congruence.
Qed.

Lemma records_of_A (P C A : list num) :
  length P = length C -> length C = length A -> A_of (records_of P C A) = A.
Proof.
  revert C A. induction P as [| p P IH]; intros [| c C] [| a A] H1 H2;
    simpl in *; try discriminate; try reflexivity.
  f_equal. apply IH; congruence.
Qed.

Lemma products_of_records (records : list (PlatformCostRecord num)) :
  products (C_of records) (A_of records) =
    map (fun record => mul (costPerCall record) (callsPerSearch record)) records.
Proof.
  unfold products, C_of, A_of.
  induction records as [| r rs IH]; simpl; [reflexivity | now rewrite IH].
Qed.

Lemma compute_cps_records (records : list (PlatformCostRecord num)) (N_s : num) :
  is_zero N_s = false ->
  compute_cps (P_of records) (C_of records) (A_of records) N_s =
    Ok (computeCPS records N_s).
Proof.
  intros HN. rewrite compute_cps_value; trivial.
  - rewrite products_of_records. reflexivity.
  - unfold P_of, C_of. now rewrite !length_map.
  - unfold C_of, A_of. now rewrite !length_map.
Qed.

(** C1: on three lists of one length and a search volume that is not
    zero, [compute_cps] returns (sum of the fixed costs) / N_s plus the
    sum, over the records, of cost per call times calls per search; this
    is the value the four steps of the specification compute for the
    records the three lists stand for. *)
Theorem compute_cps_formula (P C A : list num) (N_s : num) :
  length P = length C -> length C = length A -> is_zero N_s = false ->
  compute_cps P C A N_s =
    Ok (add (quot (py_sum P) N_s)
            (py_sum (map (fun i => mul (nth i C zero) (nth i A zero))
                         (seq 0 (length P)))))
  /\ compute_cps P C A N_s = Ok (computeCPS (records_of P C A) N_s)
  /\ P_of (records_of P C A) = P
  /\ C_of (records_of P C A) = C
  /\ A_of (records_of P C A) = A.
Proof.
  intros HPC HCA HN.
  pose proof (records_of_P P C A HPC HCA) as EP.
  pose proof (records_of_C P C A HPC HCA) as EC.
  pose proof (records_of_A P C A HPC HCA) as EA.
  repeat split; trivial.
  - rewrite compute_cps_value by assumption.
    rewrite products_by_index by assumption. now rewrite HPC.
  - rewrite <- (compute_cps_records (records_of P C A) N_s HN).
    now rewrite EP, EC, EA.
Qed.

End CalculatorFacts.

Lemma compute_cps_formula_witness :
  length Scenario.P_i_list = length Scenario.C_i_list
  /\ length Scenario.C_i_list = length Scenario.A_i_list
  /\ is_zero Scenario.searchVolume = false
  /\ compute_cps Scenario.P_i_list Scenario.C_i_list Scenario.A_i_list
                 Scenario.searchVolume
     = Ok (add (quot (py_sum Scenario.P_i_list) Scenario.searchVolume)
               (py_sum (map (fun i => mul (nth i Scenario.C_i_list zero)
                                          (nth i Scenario.A_i_list zero))
                            (seq 0 (length Scenario.P_i_list))))).
Proof.
  assert (HPC : length Scenario.P_i_list = length Scenario.C_i_list) by reflexivity.
  assert (HCA : length Scenario.C_i_list = length Scenario.A_i_list) by reflexivity.
  assert (HN : is_zero Scenario.searchVolume = false) by reflexivity.
  split; [exact HPC | split; [exact HCA | split; [exact HN |]]].
  exact (proj1 (compute_cps_formula Scenario.P_i_list Scenario.C_i_list
                                    Scenario.A_i_list Scenario.searchVolume HPC HCA HN)).
Defined.

(** ** The calculator over the exact rationals *)

Section ExactFacts.

Local Open Scope Qc_scope.

Lemma Qc_is_zero_true (x : Qc) : is_zero x = true <-> x = 0.
Proof.
  simpl. unfold Qc_eq_bool.
  destruct (Qc_eq_dec x 0); split; congruence.
Qed.

Lemma Qc_is_zero_false (x : Qc) : is_zero x = false <-> x <> 0.
Proof.
  rewrite <- Qc_is_zero_true. destruct (is_zero x); split; congruence.
Qed.

Lemma Qc_of_int_is_zero (z : Z) : is_zero (of_int z : Qc) = (z =? 0)%Z.
Proof.
  destruct (Z.eqb_spec z 0) as [-> | Hz].
  - reflexivity.
  - apply Qc_is_zero_false. simpl. intros E.
    apply Q2Qc_eq_iff in E. unfold Qeq in E. simpl in E. lia.
Qed.

(** C6: on the two records (30, 0.0088, 2) and (75, 0.02, 2) and a search
    volume of 5000, [compute_cps] returns 0.0786: the fixed term is
    105 / 5000 = 0.021, the products are 0.0176 and 0.04, and the variable
    term is 0.0576.  This holds in exact arithmetic, and the binary64
    evaluation returns the float that the literal 0.0786 denotes. *)
Theorem compute_cps_scenario :
  compute_cps Scenario.P_i_list Scenario.C_i_list Scenario.A_i_list
              Scenario.searchVolume = Ok (Q2Qc 0.0786)
  /\ totalFixedCost Scenario.records = Q2Qc 105
  /\ fixedCostPerSearch Scenario.records Scenario.searchVolume = Q2Qc 0.021
  /\ products Scenario.C_i_list Scenario.A_i_list = [Q2Qc 0.0176; Q2Qc 0.04]
  /\ variableCostPerSearch Scenario.records = Q2Qc 0.0576
  /\ compute_cps Binary64.P_i_list Binary64.C_i_list Binary64.A_i_list (of_int 5000)
     = Ok 0.0786%float.
Proof.
  split; [| split; [| split; [| split; [| split]]]].
  - rewrite compute_cps_value by reflexivity. f_equal. qc_eval.
  - qc_eval.
  - qc_eval.
  - unfold products. simpl. f_equal; [qc_eval | f_equal; qc_eval].
  - qc_eval.
  - vm_compute. reflexivity.
Qed.

(** On the scenario the compensated [sum] of recent CPython returns the
    same two sums as the plain left-to-right one. *)
Lemma compensated_sum_scenario :
  Binary64.compensated_sum Binary64.P_i_list = py_sum Binary64.P_i_list
  /\ Binary64.compensated_sum (products Binary64.C_i_list Binary64.A_i_list)
     = py_sum (products Binary64.C_i_list Binary64.A_i_list).
Proof. split; vm_compute; reflexivity. Qed.

(** A search volume of zero or less is not always refused: with a
    negative search volume the calculator raises nothing and returns a
    number, in exact arithmetic and in binary64 alike. *)
Lemma negative_volume_returns :
  Q2Qc (-5000) <= 0
  /\ compute_cps Scenario.P_i_list Scenario.C_i_list Scenario.A_i_list
                 (Q2Qc (-5000)) = Ok (Q2Qc 0.0366)
  /\ ~ rejects_volume Scenario.P_i_list Scenario.C_i_list Scenario.A_i_list
                      (Q2Qc (-5000))
  /\ compute_cps Binary64.P_i_list Binary64.C_i_list Binary64.A_i_list (of_int (-5000))
     = Ok 0.036599999999999994%float.
Proof.
  assert (E : compute_cps Scenario.P_i_list Scenario.C_i_list Scenario.A_i_list
                          (Q2Qc (-5000)) = Ok (Q2Qc 0.0366)).
  { rewrite compute_cps_value by reflexivity. f_equal. qc_eval. }
  split; [| split; [| split]].
  - discriminate.
  - exact E.
  - intros [e He]. rewrite E in He. discriminate.
  - vm_compute. reflexivity.
Qed.

(** C2, amended: on aligned lists, a search volume of zero makes
    [compute_cps] raise [ZeroDivisionError] (Python's own arithmetic
    error; the function has no check of its own), and a negative search
    volume makes it return (sum of the fixed costs) / N_s plus the
    variable term. *)
Theorem compute_cps_nonpositive_volume (P C A : list Qc) (N_s : Qc) :
  length P = length C -> length C = length A -> N_s <= 0 ->
  (N_s = 0 /\ compute_cps P C A N_s = Raise ZeroDivisionError)
  \/ (N_s < 0 /\
      compute_cps P C A N_s = Ok (py_sum P / N_s + py_sum (products C A))).
Proof.
  intros HPC HCA HN.
  destruct (Qcle_lt_or_eq _ _ HN) as [Hneg | Hzero].
  - right. split; [exact Hneg |].
    rewrite compute_cps_value; trivial.
    apply Qc_is_zero_false. now apply Qclt_not_eq.
  - left. split; [exact Hzero |].
    apply compute_cps_zero_volume; trivial.
    now apply Qc_is_zero_true.
Qed.

Lemma compute_cps_nonpositive_volume_witness :
  (Q2Qc 0 <= 0 /\
   ((Q2Qc 0 = 0 /\
     compute_cps Scenario.P_i_list Scenario.C_i_list Scenario.A_i_list (Q2Qc 0)
     = Raise ZeroDivisionError)
    \/ (Q2Qc 0 < 0 /\
        compute_cps Scenario.P_i_list Scenario.C_i_list Scenario.A_i_list (Q2Qc 0)
        = Ok (py_sum Scenario.P_i_list / Q2Qc 0
              + py_sum (products Scenario.C_i_list Scenario.A_i_list))))).
Proof.
  split.
  - discriminate.
  - apply (compute_cps_nonpositive_volume
             Scenario.P_i_list Scenario.C_i_list Scenario.A_i_list (N_s := Q2Qc 0));
      [reflexivity | reflexivity | discriminate].
Defined.

(** C9: called with three empty lists and a search volume that is not
    zero, [compute_cps] raises nothing and returns 0: the length check
    passes and both sums are zero (in binary64 the result is the float
    0.0, for a positive and for a negative search volume).  The rejection
    of an empty table is in [main] alone. *)
Theorem compute_cps_empty_lists (N_s : Qc) :
  N_s <> 0 ->
  compute_cps [] [] [] N_s = Ok 0
  /\ (length ([] : list Qc) =? length ([] : list Qc))%nat = true
  /\ py_sum ([] : list Qc) = 0
  /\ py_sum (products ([] : list Qc) []) = 0
  /\ compute_cps ([] : list float) [] [] (of_int 5000) = Ok 0%float
  /\ compute_cps ([] : list float) [] [] (of_int (-5000)) = Ok 0%float
  /\ forall (N : Z) (show_cps_range : bool) (N_s_min N_s_max N_s_step : Q),
       main N show_cps_range N_s_min N_s_max N_s_step ([] : DataFrame Qc)
       = (Ok tt, [StError empty_error None]).
Proof.
  intros HN.
  split; [| split; [| split; [| split; [| split; [| split]]]]]; try reflexivity.
  rewrite compute_cps_value by (trivial; now apply Qc_is_zero_false).
  reflexivity.
Qed.

Lemma compute_cps_empty_lists_witness :
  Q2Qc 5000 <> 0 /\ compute_cps [] [] [] (Q2Qc 5000) = Ok 0.
Proof.
  split.
  - discriminate.
  - apply (compute_cps_empty_lists (N_s := Q2Qc 5000)). discriminate.
Defined.

End ExactFacts.

(** ** Linearity, in exact arithmetic *)

Section ExactLinearity.

Local Open Scope Qc_scope.

Lemma fold_left_scaled (k : Qc) (xs : list Qc) (acc : Qc) :
  fold_left Qcplus (map (Qcmult k) xs) (k * acc) = k * fold_left Qcplus xs acc.
Proof.
  revert acc. induction xs as [| x xs IH]; intros acc; simpl.
  - reflexivity.
  - rewrite <- IH. f_equal. ring.
Qed.

Lemma py_sum_scaled (k : Qc) (xs : list Qc) :
  py_sum (map (Qcmult k) xs) = k * py_sum xs.
Proof.
  unfold py_sum. simpl. rewrite <- fold_left_scaled. f_equal. ring.
Qed.

Lemma Qc_two_nonzero : Q2Qc 2 <> 0.
Proof. discriminate. Qed.

(** C7: for a non-empty collection of records and a positive search
    volume N, the result is the fixed term plus the variable term;
    doubling every fixed cost doubles the fixed term and leaves the
    variable term as it is; replacing N by 2 * N halves the fixed term and
    leaves the variable term as it is, so that the result at 2 * N is
    (total fixed cost) / (2 * N) plus the variable term. *)
Theorem compute_cps_linear (records : list (PlatformCostRecord Qc)) (N : Qc) :
  records <> [] -> 0 < N ->
  let P := P_of records in
  let C := C_of records in
  let A := A_of records in
  let fixed := py_sum P / N in
  let variable := py_sum (products C A) in
  compute_cps P C A N = Ok (fixed + variable)
  /\ compute_cps (map (Qcmult (Q2Qc 2)) P) C A N = Ok (Q2Qc 2 * fixed + variable)
  /\ compute_cps P C A (Q2Qc 2 * N) = Ok (fixed / Q2Qc 2 + variable)
  /\ compute_cps P C A (Q2Qc 2 * N)
     = Ok (totalFixedCost records / (Q2Qc 2 * N) + variableCostPerSearch records).
Proof.
  intros _ HN P C A fixed variable.
  assert (HN0 : N <> 0) by (apply not_eq_sym; now apply Qclt_not_eq).
  assert (H2N : Q2Qc 2 * N <> 0).
  { intros E. apply Qcmult_integral in E. destruct E as [E | E].
    - now apply Qc_two_nonzero.
    - now apply HN0. }
  assert (HPC : length P = length C)
    by (unfold P, C, P_of, C_of; now rewrite !length_map).
  assert (HCA : length C = length A)
    by (unfold C, A, C_of, A_of; now rewrite !length_map).
  split; [| split; [| split]].
  - rewrite compute_cps_value; trivial. now apply Qc_is_zero_false.
  - rewrite compute_cps_value; trivial.
    + rewrite py_sum_scaled. unfold fixed, variable. simpl. f_equal. field. exact HN0.
    + now rewrite length_map.
    + now apply Qc_is_zero_false.
  - rewrite compute_cps_value; trivial.
    + unfold fixed, variable. simpl. f_equal. field.
      split; [exact HN0 | exact Qc_two_nonzero].
    + now apply Qc_is_zero_false.
  - rewrite compute_cps_value; trivial.
    + unfold P, C, A. rewrite products_of_records. reflexivity.
    + now apply Qc_is_zero_false.
Qed.

Lemma compute_cps_linear_witness :
  Scenario.records <> [] /\ 0 < Scenario.searchVolume
  /\ compute_cps (map (Qcmult (Q2Qc 2)) Scenario.P_i_list)
                 Scenario.C_i_list Scenario.A_i_list Scenario.searchVolume
     = Ok (Q2Qc 2 * (py_sum Scenario.P_i_list / Scenario.searchVolume)
           + py_sum (products Scenario.C_i_list Scenario.A_i_list))
  /\ compute_cps Scenario.P_i_list Scenario.C_i_list Scenario.A_i_list
                 (Q2Qc 2 * Scenario.searchVolume)
     = Ok (py_sum Scenario.P_i_list / Scenario.searchVolume / Q2Qc 2
           + py_sum (products Scenario.C_i_list Scenario.A_i_list)).
Proof.
  assert (Hne : Scenario.records <> []) by discriminate.
  assert (Hpos : 0 < Scenario.searchVolume) by reflexivity.
  split; [exact Hne | split; [exact Hpos |]].
  destruct (compute_cps_linear Hne Hpos) as (_ & Hdouble & Hhalf & _).
  split; [exact Hdouble | exact Hhalf].
Defined.

End ExactLinearity.

(** ** Order of the records *)

Section OrderInvariance.

Context {num : Type} `{PyNum num}.

Hypothesis add_comm : forall x y : num, add x y = add y x.
Hypothesis add_assoc : forall x y z : num, add x (add y z) = add (add x y) z.

Lemma fold_left_add_permutation (xs ys : list num) :
  Permutation xs ys -> forall acc, fold_left add xs acc = fold_left add ys acc.
Proof.
  induction 1 as [| x xs ys _ IH | x y xs | xs ys zs _ IH1 _ IH2]; intros acc; simpl.
  - reflexivity.
  - apply IH.
  - f_equal. rewrite <- !add_assoc. f_equal. apply add_comm.
  - now rewrite IH1.
Qed.

Lemma py_sum_permutation (xs ys : list num) :
  Permutation xs ys -> py_sum xs = py_sum ys.
Proof. intros Hp. unfold py_sum. now apply fold_left_add_permutation. Qed.

(** C8, amended: where the addition of the numbers is commutative and
    associative (exact arithmetic), [compute_cps] returns the same result
    on every permutation of the records, for every search volume
    (positive or not). *)
Theorem compute_cps_permutation
        (records records' : list (PlatformCostRecord num)) (N_s : num) :
  Permutation records records' ->
  compute_cps (P_of records) (C_of records) (A_of records) N_s
  = compute_cps (P_of records') (C_of records') (A_of records') N_s.
Proof.
  intros Hp.
  assert (Hlen : forall rs : list (PlatformCostRecord num),
             length (P_of rs) = length (C_of rs)
             /\ length (C_of rs) = length (A_of rs)).
  { intros rs. unfold P_of, C_of, A_of. now rewrite !length_map. }
  rewrite !compute_cps_aligned by apply Hlen.
  rewrite !products_of_records. unfold P_of.
  rewrite (py_sum_permutation (Permutation_map fixedCost Hp)).
  rewrite (py_sum_permutation
             (Permutation_map (fun r => mul (costPerCall r) (callsPerSearch r)) Hp)).
  reflexivity.
Qed.

End OrderInvariance.

Lemma compute_cps_permutation_witness :
  Permutation Scenario.records (rev Scenario.records)
  /\ compute_cps (P_of Scenario.records) (C_of Scenario.records)
                 (A_of Scenario.records) Scenario.searchVolume
     = compute_cps (P_of (rev Scenario.records)) (C_of (rev Scenario.records))
                   (A_of (rev Scenario.records)) Scenario.searchVolume.
Proof.
  assert (Hp : Permutation Scenario.records (rev Scenario.records))
    by apply perm_swap.
  split; [exact Hp |].
  exact (@compute_cps_permutation Qc Qc_PyNum Qcplus_comm Qcplus_assoc _ _
                                  Scenario.searchVolume Hp).
Defined.

(** On the floats [main] passes the order of the records can show in the
    last digit: with fixed costs 0.1, 0.2, 0.3, no cost per call and a
    search volume of 1, [compute_cps] returns 0.6000000000000001, and on
    the same records in reverse order it returns 0.6.  Binary64 addition
    is commutative but not associative. *)
Lemma float_order_matters :
  Permutation Rounding.records (rev Rounding.records)
  /\ compute_cps (P_of Rounding.records) (C_of Rounding.records)
                 (A_of Rounding.records) (of_int 1)
     = Ok 0.6000000000000001%float
  /\ compute_cps (P_of (rev Rounding.records)) (C_of (rev Rounding.records))
                 (A_of (rev Rounding.records)) (of_int 1)
     = Ok 0.6%float
  /\ compute_cps (P_of Rounding.records) (C_of Rounding.records)
                 (A_of Rounding.records) (of_int 1)
     <> compute_cps (P_of (rev Rounding.records)) (C_of (rev Rounding.records))
                    (A_of (rev Rounding.records)) (of_int 1)
  /\ ((0.1 + 0.2) + 0.3 <> 0.1 + (0.2 + 0.3))%float
  /\ PrimFloat.ltb 0%float (of_int 1) = true.
Proof.
  split; [apply Permutation_rev | split; [| split; [| split; [| split]]]].
  - vm_compute. reflexivity.
  - vm_compute. reflexivity.
  - vm_compute. intros E. discriminate E.
  - vm_compute. intros E. discriminate E.
  - vm_compute. reflexivity.
Qed.

(** The compensated [sum] of recent CPython removes this difference for
    0.1, 0.2, 0.3 but is not free of the order either: its compensation
    term is itself a rounded sum. *)
Lemma compensated_sum_order_matters :
  Binary64.compensated_sum (P_of Rounding.records)
  = Binary64.compensated_sum (P_of (rev Rounding.records))
  /\ Permutation Rounding.spread_costs Rounding.spread_costs_reordered
  /\ Binary64.compensated_sum Rounding.spread_costs = 1%float
  /\ Binary64.compensated_sum Rounding.spread_costs_reordered
     = 1.0000000000000002%float.
Proof.
  split; [vm_compute; reflexivity | split; [| split; vm_compute; reflexivity]].
  unfold Rounding.spread_costs, Rounding.spread_costs_reordered.
  apply perm_skip. apply Permutation_cons_app with (l1 := [_; _]) (l2 := []).
  reflexivity.
Qed.

(** ** [int], [range] and the guard of the sweep *)

Lemma Qlt_bool_iff (x y : Q) : Qlt_bool x y = true <-> (x < y)%Q.
Proof.
  unfold Qlt_bool. rewrite negb_true_iff, <- not_true_iff_false, Qle_bool_iff.
  split; [apply Qnot_le_lt | apply Qlt_not_le].
Qed.

Lemma Qlt_bool_false_iff (x y : Q) : Qlt_bool x y = false <-> (y <= x)%Q.
Proof.
  unfold Qlt_bool. now rewrite negb_false_iff, Qle_bool_iff.
Qed.

Lemma py_int_inject_Z (z : Z) : py_int (inject_Z z) = z.
Proof. unfold py_int. simpl. apply Z.quot_1_r. Qed.

Lemma py_int_integer_part (x : Q) : py_int x = integer_part x.
Proof.
  unfold py_int, integer_part. destruct x as [n d].
  unfold Qle_bool, Qceiling, Qfloor. simpl. rewrite Z.mul_1_r.
  destruct (Z.leb_spec 0 n) as [Hn | Hn].
  - apply Z.quot_div_nonneg; lia.
  - rewrite <- (Z.opp_involutive n) at 1.
    rewrite Z.quot_opp_l by lia. f_equal.
    apply Z.quot_div_nonneg; lia.
Qed.

Lemma py_range_ascending (start stop step : Z) :
  (0 < step)%Z -> (start < stop)%Z ->
  py_range start stop step =
    Ok (arithmetic_sequence start step (Z.to_nat ((stop - start - 1) / step + 1))).
Proof.
  intros Hstep Hlt. unfold py_range, range_length.
  destruct (Z.eqb_spec step 0) as [E | _]; [lia |].
  destruct (Z.ltb_spec 0 step) as [_ | E]; [| lia].
  destruct (Z.ltb_spec start stop) as [_ | E]; [| lia].
  reflexivity.
Qed.

Lemma arithmetic_sequence_In (first step : Z) (n : nat) (v : Z) :
  In v (arithmetic_sequence first step n) <->
  exists k : nat, (k < n)%nat /\ v = (first + Z.of_nat k * step)%Z.
Proof.
  unfold arithmetic_sequence. rewrite in_map_iff. split.
  - intros (k & E & Hin). apply in_seq in Hin. exists k. split; [lia | now symmetry].
  - intros (k & Hk & E). exists k. split; [now symmetry | apply in_seq; lia].
Qed.

(** The terms of the sweep are the terms [min + k * step] that do not
    exceed [max]. *)
Lemma sweep_values_In (mn mx st v : Z) :
  (mn < mx)%Z -> (0 < st)%Z ->
  In v (arithmetic_sequence mn st (Z.to_nat ((mx - mn) / st + 1))) <->
  exists k : Z, (0 <= k)%Z /\ v = (mn + k * st)%Z /\ (v <= mx)%Z.
Proof.
  intros Hlt Hst. rewrite arithmetic_sequence_In.
  assert (Hq : (0 <= (mx - mn) / st)%Z) by (apply Z.div_pos; lia).
  split.
  - intros (k & Hk & ->). exists (Z.of_nat k). repeat split; try lia.
    assert (Hk' : (Z.of_nat k <= (mx - mn) / st)%Z) by lia.
    pose proof (Z.mul_div_le (mx - mn) st Hst) as Hle.
    nia.
  - intros (k & Hk & -> & Hle). exists (Z.to_nat k).
    rewrite Z2Nat.id by exact Hk. split; [| reflexivity].
    assert (Hk' : (k <= (mx - mn) / st)%Z).
    { apply Z.div_le_lower_bound; [exact Hst | lia]. }
    lia.
Qed.

Lemma arithmetic_sequence_sorted (first step : Z) (n : nat) :
  (0 < step)%Z -> StronglySorted Z.lt (arithmetic_sequence first step n).
Proof.
  intros Hst. unfold arithmetic_sequence.
  generalize 0%nat as a. induction n as [| n IH]; intros a; simpl.
  - constructor.
  - constructor; [apply IH |].
    apply Forall_forall. intros v Hv. apply in_map_iff in Hv.
    destruct Hv as (k & <- & Hk). apply in_seq in Hk. nia.
Qed.

(** ** [main] and the sweep *)

Section SweepFacts.

Context {num : Type} `{PyNum num}.

Variables P C A : list num.

Lemma combine_map_self {X Y : Type} (f : X -> Y) (l : list X) :
  combine l (map f l) = map (fun x => (x, f x)) l.
Proof. induction l as [| x l IH]; simpl; [reflexivity | now rewrite IH]. Qed.

Lemma invoke_returns (v : Z) (c : num) :
  compute_cps P C A (of_int v) = Ok c -> invoke P C A v = (Ok c, [Invoke v]).
Proof. intros E. unfold invoke, bind, emit, lift. now rewrite E. Qed.

Lemma invoke_raises (v : Z) (e : exception) :
  compute_cps P C A (of_int v) = Raise e -> invoke P C A v = (Raise e, [Invoke v]).
Proof. intros E. unfold invoke, bind, emit, lift. now rewrite E. Qed.

(** A comprehension whose calls all return collects their values and
    leaves one invocation per element. *)
Lemma comprehension_invoke (f : Z -> num) (values : list Z) :
  (forall v, In v values -> compute_cps P C A (of_int v) = Ok (f v)) ->
  comprehension (invoke P C A) values = (Ok (map f values), map Invoke values).
Proof.
  induction values as [| v values IH]; intros Hok; cbn [comprehension map].
  - reflexivity.
  - rewrite (invoke_returns v (Hok v (or_introl eq_refl))).
    rewrite IH by (intros w Hw; apply Hok; now right).
    unfold bind, ret. simpl. now rewrite app_nil_r.
Qed.


Lemma plot_range_ok (f : Z -> num) (N_s : Z) (cps : num) (values : list Z) :
  (forall v, In v values -> compute_cps P C A (of_int v) = Ok (f v)) ->
  plot_range P C A N_s cps values
  = (Ok tt, map Invoke values ++ [StChart (map (fun v => (v, f v)) values) (N_s, cps)]).
Proof.
  intros Hok. unfold plot_range, bind.
  rewrite (comprehension_invoke f values Hok). simpl.
  now rewrite combine_map_self.
Qed.

(** C3: on an empty table [main] shows the message asking for at least
    one platform and returns; [compute_cps] is not invoked.  The
    calculator has no test for emptiness of its own: on three empty lists
    it passes the length check and goes on to the division. *)
Theorem main_empty_table (N_s : Z) (show_cps_range : bool) (N_s_min N_s_max N_s_step : Q)
        (volume : num) :
  main N_s show_cps_range N_s_min N_s_max N_s_step ([] : DataFrame num)
  = (Ok tt, [StError empty_error None])
  /\ invocations (snd (main N_s show_cps_range N_s_min N_s_max N_s_step
                            ([] : DataFrame num))) = []
  /\ compute_cps [] [] [] volume
     = rbind (truediv zero volume) (fun fixed => Ok (add fixed zero)).
Proof. split; [| split]; reflexivity. Qed.

(** The guard of the sweep turns an invalid range away. *)
Lemma show_range_rejected (N_s : Z) (cps : num) (N_s_min N_s_max N_s_step : Q) :
  (N_s_max <= N_s_min)%Q \/ (N_s_step <= 0)%Q ->
  show_range P C A N_s cps N_s_min N_s_max N_s_step
  = (Ok tt, [StError invalid_range_error None]).
Proof.
  intros Hbad. unfold show_range. destruct Hbad as [Hbad | Hbad].
  - apply Qlt_bool_false_iff in Hbad. now rewrite Hbad.
  - apply Qlt_bool_false_iff in Hbad. rewrite Hbad.
    now rewrite andb_false_r.
Qed.

(** C4: with min >= max or step <= 0 the sweep shows the message about
    the range and nothing else: no chart is drawn and [compute_cps] is
    not invoked for any swept value. *)
Theorem show_range_invalid (N_s : Z) (cps : num) (N_s_min N_s_max N_s_step : Q) :
  (N_s_max <= N_s_min)%Q \/ (N_s_step <= 0)%Q ->
  show_range P C A N_s cps N_s_min N_s_max N_s_step
  = (Ok tt, [StError invalid_range_error None])
  /\ charts (snd (show_range P C A N_s cps N_s_min N_s_max N_s_step)) = []
  /\ invocations (snd (show_range P C A N_s cps N_s_min N_s_max N_s_step)) = [].
Proof.
  intros Hbad.
  rewrite (show_range_rejected N_s cps Hbad).
  split; [| split]; reflexivity.
Qed.

(** With a valid range the guard lets the sweep through. *)
Lemma show_range_valid (N_s : Z) (cps : num) (N_s_min N_s_max N_s_step : Q) :
  (N_s_min < N_s_max)%Q -> (0 < N_s_step)%Q ->
  show_range P C A N_s cps N_s_min N_s_max N_s_step
  = bind (lift (py_range (py_int N_s_min) (py_int N_s_max + 1) (py_int N_s_step)))
         (plot_range P C A N_s cps).
Proof.
  intros Hlt Hst. unfold show_range.
  apply Qlt_bool_iff in Hlt. apply Qlt_bool_iff in Hst.
  now rewrite Hlt, Hst.
Qed.

(** C10: the sweep works on [int(min)], [int(max)] and [int(step)]: the
    values it generates are [range(int(min), int(max) + 1, int(step))],
    where [int] keeps the integer part (towards zero); bounds that differ
    only in their fractional parts give the same sweep, and a step below 1
    becomes the step 0 that [range] refuses. *)
Theorem show_range_truncates (N_s : Z) (cps : num) (N_s_min N_s_max N_s_step : Q) :
  (N_s_min < N_s_max)%Q -> (0 < N_s_step)%Q ->
  show_range P C A N_s cps N_s_min N_s_max N_s_step
  = bind (lift (py_range (integer_part N_s_min) (integer_part N_s_max + 1)
                         (integer_part N_s_step)))
         (plot_range P C A N_s cps)
  /\ (forall N_s_min' N_s_max' N_s_step' : Q,
        (N_s_min' < N_s_max')%Q -> (0 < N_s_step')%Q ->
        integer_part N_s_min' = integer_part N_s_min ->
        integer_part N_s_max' = integer_part N_s_max ->
        integer_part N_s_step' = integer_part N_s_step ->
        show_range P C A N_s cps N_s_min' N_s_max' N_s_step'
        = show_range P C A N_s cps N_s_min N_s_max N_s_step)
  /\ ((N_s_step < 1)%Q ->
      show_range P C A N_s cps N_s_min N_s_max N_s_step
      = (Raise (ValueError range_error), [])).
Proof.
  intros Hlt Hst. split; [| split].
  - rewrite show_range_valid by assumption.
    now rewrite !py_int_integer_part.
  - intros mn' mx' st' Hlt' Hst' Emn Emx Est.
    rewrite !show_range_valid by assumption.
    rewrite !py_int_integer_part. now rewrite Emn, Emx, Est.
  - intros Hsmall. rewrite show_range_valid by assumption.
    assert (E : py_int N_s_step = 0%Z).
    { rewrite py_int_integer_part. unfold integer_part.
      apply Qlt_le_weak in Hst as Hle. apply Qle_bool_iff in Hle. rewrite Hle.
      pose proof (Qfloor_le N_s_step) as Hlo.
      pose proof (Qlt_floor N_s_step) as Hhi.
      assert (H0 : (0 <= Qfloor N_s_step)%Z).
      { apply (Qfloor_resp_le 0 N_s_step). now apply Qlt_le_weak. }
      assert (H1 : (Qfloor N_s_step < 1)%Z).
      { rewrite Zlt_Qlt. eapply Qle_lt_trans; [exact Hlo | exact Hsmall]. }
      lia. }
    rewrite E. reflexivity.
Qed.

End SweepFacts.

Section IntegerSweep.

Context {num : Type} `{PyNum num}.

(** An [int] search volume is a zero divisor exactly when it is 0. *)
Hypothesis of_int_is_zero : forall z : Z, is_zero (of_int z) = (z =? 0)%Z.

Variables P C A : list num.

Hypothesis aligned_PC : length P = length C.
Hypothesis aligned_CA : length C = length A.

Lemma compute_cps_at (v : Z) :
  v <> 0%Z -> compute_cps P C A (of_int v) = Ok (cps_at P C A v).
Proof.
  intros Hv. apply compute_cps_value; trivial.
  rewrite of_int_is_zero. now apply Z.eqb_neq.
Qed.




(** C5, amended: for integers min < max and step > 0 whose sequence
    min, min + step, ... does not pass through 0, the sweep invokes
    [compute_cps] once per term, in order, and draws one chart whose
    points pair each term with the value of the formula there.  The terms
    are exactly the numbers min + k * step that do not exceed max, they
    increase strictly, and there are as many points as terms; for
    min = 1000, max = 10000, step = 500 they are the 19 numbers
    1000, 1500, ..., 10000. *)
Theorem show_range_arithmetic_sequence (N_s : Z) (cps : num) (mn mx st : Z) :
  (mn < mx)%Z -> (0 < st)%Z ->
  let values := arithmetic_sequence mn st (Z.to_nat ((mx - mn) / st + 1)) in
  let plot_data := map (fun v => (v, cps_at P C A v)) values in
  ~ In 0%Z values ->
  show_range P C A N_s cps (inject_Z mn) (inject_Z mx) (inject_Z st)
  = (Ok tt, map Invoke values ++ [StChart plot_data (N_s, cps)])
  /\ (forall v, In v values <->
                exists k : Z, (0 <= k)%Z /\ v = (mn + k * st)%Z /\ (v <= mx)%Z)
  /\ StronglySorted Z.lt (map fst plot_data)
  /\ length plot_data = length values
  /\ Forall (fun point => compute_cps P C A (of_int (fst point)) = Ok (snd point))
            plot_data
  /\ arithmetic_sequence 1000 500 (Z.to_nat ((10000 - 1000) / 500 + 1))
     = [1000; 1500; 2000; 2500; 3000; 3500; 4000; 4500; 5000; 5500; 6000; 6500;
        7000; 7500; 8000; 8500; 9000; 9500; 10000]%Z
  /\ length (arithmetic_sequence 1000 500 (Z.to_nat ((10000 - 1000) / 500 + 1)))
     = 19%nat.
Proof.
  intros Hlt Hst values plot_data Hzero.
  assert (Hok : forall v, In v values -> compute_cps P C A (of_int v) = Ok (cps_at P C A v)).
  { intros v Hv. apply compute_cps_at. intros ->. now apply Hzero. }
  split; [| split; [| split; [| split; [| split; [| split]]]]].
  - rewrite show_range_valid.
    + rewrite !py_int_inject_Z.
      rewrite py_range_ascending by lia.
      replace (mx + 1 - mn - 1)%Z with (mx - mn)%Z by lia.
      unfold lift, bind. fold values.
      now rewrite (plot_range_ok P C A (cps_at P C A) N_s cps values Hok).
    + now rewrite <- Zlt_Qlt.
    + change 0%Q with (inject_Z 0). now rewrite <- Zlt_Qlt.
  - intros v. now apply sweep_values_In.
  - unfold plot_data. rewrite map_map. simpl. rewrite map_id.
    now apply arithmetic_sequence_sorted.
  - unfold plot_data. apply length_map.
  - unfold plot_data. apply Forall_forall. intros [v c] Hin.
    apply in_map_iff in Hin. destruct Hin as (w & E & Hw).
    inversion E; subst. simpl. now apply Hok.
  - reflexivity.
  - reflexivity.
Qed.

End IntegerSweep.

(** ** From the sweep to [main] *)

Section MainFacts.

Context {num : Type} `{PyNum num}.

Variables (edited_df : DataFrame num) (P C A : list num) (N_s : Z) (cps : num).

Hypothesis table_not_empty : empty edited_df = false.
Hypothesis table_numeric : extract edited_df = Ok (P, C, A).
Hypothesis current_point : compute_cps P C A (of_int N_s) = Ok cps.

(** Without the sweep [main] invokes the calculator once and shows the
    result. *)
Lemma main_single_point (N_s_min N_s_max N_s_step : Q) :
  main N_s false N_s_min N_s_max N_s_step edited_df
  = (Ok tt, [Invoke N_s; StCps cps]).
Proof.
  unfold main. rewrite table_not_empty, table_numeric.
  rewrite (invoke_returns P C A N_s current_point). reflexivity.
Qed.

(** With the sweep, the trace of [show_range] follows the current point;
    an exception of the sweep is caught and shown. *)
Lemma main_with_range (N_s_min N_s_max N_s_step : Q) :
  main N_s true N_s_min N_s_max N_s_step edited_df
  = match show_range P C A N_s cps N_s_min N_s_max N_s_step with
    | (Ok _, t) => (Ok tt, Invoke N_s :: StCps cps :: t)
    | (Raise e, t) =>
        (Ok tt, Invoke N_s :: StCps cps :: t ++ [StError calculation_error (Some e)])
    end.
Proof.
  unfold main. rewrite table_not_empty, table_numeric.
  rewrite (invoke_returns P C A N_s current_point).
  unfold bind, emit, try_except.
  destruct (show_range P C A N_s cps N_s_min N_s_max N_s_step) as [[[] | e] t];
    reflexivity.
Qed.

(** An invalid range is reported after the current point, and the
    calculator has been invoked for the current point only. *)
Lemma main_invalid_range (N_s_min N_s_max N_s_step : Q) :
  (N_s_max <= N_s_min)%Q \/ (N_s_step <= 0)%Q ->
  main N_s true N_s_min N_s_max N_s_step edited_df
  = (Ok tt, [Invoke N_s; StCps cps; StError invalid_range_error None]).
Proof.
  intros Hbad. rewrite main_with_range.
  now rewrite (show_range_rejected P C A N_s cps Hbad).
Qed.

End MainFacts.

(** ** The sweep on the scenario *)

Lemma show_range_invalid_witness :
  ((inject_Z 1000 <= inject_Z 10000)%Q \/ (inject_Z 500 <= 0)%Q)
  /\ show_range Scenario.P_i_list Scenario.C_i_list Scenario.A_i_list 5000
                (Q2Qc 0.0786) (inject_Z 10000) (inject_Z 1000) (inject_Z 500)
     = (Ok tt, [StError invalid_range_error None]).
Proof.
  assert (Hbad : (inject_Z 1000 <= inject_Z 10000)%Q \/ (inject_Z 500 <= 0)%Q)
    by (left; discriminate).
  split; [exact Hbad |].
  exact (proj1 (show_range_invalid Scenario.P_i_list Scenario.C_i_list Scenario.A_i_list
                                   5000 (Q2Qc 0.0786) Hbad)).
Defined.

Lemma show_range_truncates_witness :
  (1000.9 < 10000.2)%Q /\ (0 < 500.7)%Q
  /\ integer_part 1000.9 = 1000%Z /\ integer_part 10000.2 = 10000%Z
  /\ integer_part 500.7 = 500%Z
  /\ show_range Scenario.P_i_list Scenario.C_i_list Scenario.A_i_list 5000
                (Q2Qc 0.0786) 1000.9 10000.2 500.7
     = show_range Scenario.P_i_list Scenario.C_i_list Scenario.A_i_list 5000
                  (Q2Qc 0.0786) (inject_Z 1000) (inject_Z 10000) (inject_Z 500).
Proof.
  assert (Hlt : (inject_Z 1000 < inject_Z 10000)%Q) by reflexivity.
  assert (Hst : (0 < inject_Z 500)%Q) by reflexivity.
  assert (Hlt' : (1000.9 < 10000.2)%Q) by reflexivity.
  assert (Hst' : (0 < 500.7)%Q) by reflexivity.
  repeat (split; [first [assumption | reflexivity] |]).
  destruct (show_range_truncates Scenario.P_i_list Scenario.C_i_list Scenario.A_i_list
                                 5000 (Q2Qc 0.0786) Hlt Hst) as (_ & Hsame & _).
  apply Hsame; first [assumption | reflexivity].
Defined.

Lemma show_range_arithmetic_sequence_witness :
  (1000 < 10000)%Z /\ (0 < 500)%Z
  /\ ~ In 0%Z (arithmetic_sequence 1000 500 (Z.to_nat ((10000 - 1000) / 500 + 1)))
  /\ show_range Scenario.P_i_list Scenario.C_i_list Scenario.A_i_list 5000
                (Q2Qc 0.0786) (inject_Z 1000) (inject_Z 10000) (inject_Z 500)
     = (Ok tt,
        map Invoke (arithmetic_sequence 1000 500 (Z.to_nat ((10000 - 1000) / 500 + 1)))
        ++ [StChart
              (map (fun v => (v, cps_at Scenario.P_i_list Scenario.C_i_list
                                        Scenario.A_i_list v))
                   (arithmetic_sequence 1000 500 (Z.to_nat ((10000 - 1000) / 500 + 1))))
              (5000%Z, Q2Qc 0.0786)]).
Proof.
  assert (Hlt : (1000 < 10000)%Z) by reflexivity.
  assert (Hst : (0 < 500)%Z) by reflexivity.
  assert (Hzero : ~ In 0%Z (arithmetic_sequence 1000 500
                                                (Z.to_nat ((10000 - 1000) / 500 + 1)))).
  { intros Hin. vm_compute in Hin.
    repeat (destruct Hin as [Hin | Hin]; [discriminate Hin |]). exact Hin. }
  split; [exact Hlt | split; [exact Hst | split; [exact Hzero |]]].
  exact (proj1 (show_range_arithmetic_sequence
                  Qc_of_int_is_zero
                  Scenario.P_i_list Scenario.C_i_list Scenario.A_i_list
                  eq_refl eq_refl 5000 (Q2Qc 0.0786) Hlt Hst Hzero)).
Defined.

(** Not every range with min < max and step > 0 yields a series: the
    range -500, 500 with step 500 has its second term at 0; there
    the calculator raises [ZeroDivisionError], the comprehension ends, no
    chart is drawn and [main] reports a calculation error (the sweep
    behaves so on exact numbers and on binary64 floats).  And with
    min = 1.5, max = 4, step = 1 the calculator is invoked at 1, 2, 3, 4,
    not at 1.5, 2.5, 3.5. *)
Lemma sweep_through_zero :
  (inject_Z (-500) < inject_Z 500)%Q /\ (0 < inject_Z 500)%Q
  /\ fst (show_range Scenario.P_i_list Scenario.C_i_list Scenario.A_i_list 5000
                     (Q2Qc 0.0786) (inject_Z (-500)) (inject_Z 500) (inject_Z 500))
     = Raise ZeroDivisionError
  /\ snd (show_range Scenario.P_i_list Scenario.C_i_list Scenario.A_i_list 5000
                     (Q2Qc 0.0786) (inject_Z (-500)) (inject_Z 500) (inject_Z 500))
     = [Invoke (-500); Invoke 0]
  /\ invocations (snd (main 5000 true (inject_Z (-500)) (inject_Z 500) (inject_Z 500)
                            Scenario.edited_df))
     = [5000; -500; 0]%Z
  /\ charts (snd (main 5000 true (inject_Z (-500)) (inject_Z 500) (inject_Z 500)
                       Scenario.edited_df))
     = []
  /\ last (snd (main 5000 true (inject_Z (-500)) (inject_Z 500) (inject_Z 500)
                     Scenario.edited_df)) (Invoke 0)
     = StError calculation_error (Some ZeroDivisionError)
  /\ show_range Binary64.P_i_list Binary64.C_i_list Binary64.A_i_list 5000
                0.0786%float (inject_Z (-500)) (inject_Z 500) (inject_Z 500)
     = (Raise ZeroDivisionError, [Invoke (-500); Invoke 0])
  /\ (1.5 < 4)%Q /\ (0 < 1)%Q
  /\ invocations (snd (show_range Scenario.P_i_list Scenario.C_i_list Scenario.A_i_list
                                  5000 (Q2Qc 0.0786) 1.5 4 1))
     = [1; 2; 3; 4]%Z.
Proof.
  repeat (split; [vm_compute; reflexivity |]). vm_compute. reflexivity.
Qed.

(** * Further properties of the code *)

(** ** Every way [compute_cps] can end *)

Section CalculatorOutcome.

Context {num : Type} `{PyNum num}.

(** X1: the two failures of [compute_cps] and its return are told apart
    by its inputs.  It raises the [ValueError] of the length check exactly
    when the three lists are not of one length, whatever the search
    volume, zero included: the check comes first.  It raises
    [ZeroDivisionError] exactly when the lists are aligned and the search
    volume is a zero divisor.  And whenever it returns, the lists were
    aligned, the search volume was not a zero divisor, and the value is
    (sum of the fixed costs) / N_s plus the sum of the products. *)
Theorem compute_cps_outcome (P C A : list num) (N_s : num) :
  (compute_cps P C A N_s = Raise (ValueError length_error)
   <-> (length P <> length C \/ length C <> length A))
  /\ (compute_cps P C A N_s = Raise ZeroDivisionError
      <-> (length P = length C /\ length C = length A /\ is_zero N_s = true))
  /\ (forall cps, compute_cps P C A N_s = Ok cps ->
        length P = length C /\ length C = length A /\ is_zero N_s = false
        /\ cps = add (quot (py_sum P) N_s) (py_sum (products C A))).
Proof.
  destruct (Nat.eq_dec (length P) (length C)) as [HPC | HPC];
    [destruct (Nat.eq_dec (length C) (length A)) as [HCA | HCA] |].
  - destruct (is_zero N_s) eqn:HN.
    + rewrite (compute_cps_zero_volume P C A N_s HPC HCA HN).
      split; [| split].
      * split; [discriminate | intros [E | E]; contradiction].
      * split; [now intros _ | reflexivity].
      * intros cps E. discriminate.
    + rewrite (compute_cps_value P C A N_s HPC HCA HN).
      split; [| split].
      * split; [discriminate | intros [E | E]; contradiction].
      * split; [discriminate | intros (_ & _ & E); discriminate].
      * intros cps E. inversion E. now repeat split.
  - rewrite (compute_cps_misaligned P C A N_s (or_intror HCA)).
    split; [| split].
    + split; [intros _; now right | reflexivity].
    + split; [discriminate | intros (_ & E & _); contradiction].
    + intros cps E. discriminate.
  - rewrite (compute_cps_misaligned P C A N_s (or_introl HPC)).
    split; [| split].
    + split; [intros _; now left | reflexivity].
    + split; [discriminate | intros (E & _); contradiction].
    + intros cps E. discriminate.
Qed.

End CalculatorOutcome.

(** ** The columns of the table *)

Section Extraction.

Context {num : Type} `{PyNum num}.

Lemma astype_float_returns (column : list (option num)) (xs : list num) :
  astype_float column = Ok xs <-> column = map Some xs.
Proof.
  revert xs. induction column as [| [x |] column IH]; intros xs; simpl.
  - split.
    + intros E. inversion E. reflexivity.
    + destruct xs; [reflexivity | discriminate].
  - destruct (astype_float column) as [ys | e] eqn:Ec; simpl.
    + split.
      * intros E. inversion E; subst. simpl. f_equal. now apply IH.
      * destruct xs as [| y xs]; [discriminate |]. simpl. intros E.
        inversion E; subst. f_equal. f_equal.
        assert (Ok ys = Ok xs) as Eq by (now apply IH). now inversion Eq.
    + split; [discriminate |].
      destruct xs as [| y xs]; [discriminate |]. simpl. intros E.
      inversion E; subst.
      assert (Raise e = Ok xs) as Eq by (now apply IH). discriminate.
  - split; [discriminate |]. destruct xs; discriminate.
Qed.

Lemma astype_float_exception (column : list (option num)) (e : exception) :
  astype_float column = Raise e -> e = ConversionError.
Proof.
  induction column as [| [x |] column IH]; simpl.
  - discriminate.
  - destruct (astype_float column) as [ys | e']; simpl.
    + discriminate.
    + intros E. inversion E; subst. now apply IH.
  - intros E. now inversion E.
Qed.

Lemma extract_returns (df : DataFrame num) (P C A : list num) :
  extract df = Ok (P, C, A)
  <-> (map Fixed_Cost df = map Some P
       /\ map Cost_per_API_Call df = map Some C
       /\ map API_Calls_per_Search df = map Some A).
Proof.
  unfold extract. split.
  - destruct (astype_float (map Fixed_Cost df)) as [P' |] eqn:EP; [| discriminate].
    destruct (astype_float (map Cost_per_API_Call df)) as [C' |] eqn:EC; [| discriminate].
    destruct (astype_float (map API_Calls_per_Search df)) as [A' |] eqn:EA; [| discriminate].
    simpl. intros E. inversion E; subst.
    repeat split; now apply astype_float_returns.
  - intros (EP & EC & EA).
    apply astype_float_returns in EP, EC, EA. now rewrite EP, EC, EA.
Qed.

Lemma extract_exception (df : DataFrame num) (e : exception) :
  extract df = Raise e -> e = ConversionError.
Proof.
  unfold extract.
  destruct (astype_float (map Fixed_Cost df)) as [P' |] eqn:EP; simpl.
  - destruct (astype_float (map Cost_per_API_Call df)) as [C' |] eqn:EC; simpl.
    + destruct (astype_float (map API_Calls_per_Search df)) as [A' |] eqn:EA; simpl.
      * discriminate.
      * intros E. inversion E; subst. now apply astype_float_exception in EA.
    + intros E. inversion E; subst. now apply astype_float_exception in EC.
  - intros E. inversion E; subst. now apply astype_float_exception in EP.
Qed.

(** The three lists [main] extracts have one length, the number of rows. *)
Lemma extract_aligned (df : DataFrame num) (P C A : list num) :
  extract df = Ok (P, C, A) ->
  length P = length df /\ length C = length df /\ length A = length df.
Proof.
  intros E. apply extract_returns in E. destruct E as (EP & EC & EA).
  apply (f_equal (@length _)) in EP, EC, EA.
  rewrite !length_map in EP, EC, EA. now repeat split.
Qed.

End Extraction.

(** ** Every way a run of [main] can end *)

Section RunOutcome.

Context {num : Type} `{PyNum num}.

Lemma errors_app (t1 t2 : list (event num)) :
  errors (t1 ++ t2) = errors t1 ++ errors t2.
Proof.
  induction t1 as [| ev t1 IH]; simpl; [reflexivity |].
  destruct ev; simpl; now rewrite IH.
Qed.

Lemma charts_app (t1 t2 : list (event num)) :
  charts (t1 ++ t2) = charts t1 ++ charts t2.
Proof.
  induction t1 as [| ev t1 IH]; simpl; [reflexivity |].
  destruct ev; simpl; now rewrite IH.
Qed.

Lemma shown_app (t1 t2 : list (event num)) :
  shown (t1 ++ t2) = shown t1 ++ shown t2.
Proof.
  induction t1 as [| ev t1 IH]; simpl; [reflexivity |].
  destruct ev; simpl; now rewrite IH.
Qed.

Lemma invocations_app (t1 t2 : list (event num)) :
  invocations (t1 ++ t2) = invocations t1 ++ invocations t2.
Proof.
  induction t1 as [| ev t1 IH]; simpl; [reflexivity |].
  destruct ev; simpl; now rewrite IH.
Qed.

Lemma errors_invokes (vs : list Z) : errors (map (@Invoke num) vs) = [].
Proof. induction vs; simpl; trivial. Qed.

Lemma charts_invokes (vs : list Z) : charts (map (@Invoke num) vs) = [].
Proof. induction vs; simpl; trivial. Qed.

Lemma shown_invokes (vs : list Z) : shown (map (@Invoke num) vs) = [].
Proof. induction vs; simpl; trivial. Qed.

Lemma invocations_invokes (vs : list Z) : invocations (map (@Invoke num) vs) = vs.
Proof. induction vs as [| v vs IH]; simpl; [reflexivity | now rewrite IH]. Qed.

Lemma py_range_exception (start stop step : Z) (e : exception) :
  py_range start stop step = Raise e -> e = ValueError range_error.
Proof.
  unfold py_range. destruct (step =? 0)%Z; [| discriminate].
  intros E. now inversion E.
Qed.

Variables P C A : list num.

(** A comprehension over the calculator either collects one value per
    element, or stops at the first element where the calculator raises. *)
Lemma comprehension_outcome (vs : list Z) :
  (exists cs, comprehension (invoke P C A) vs = (Ok cs, map Invoke vs)
              /\ Forall2 (fun v c => compute_cps P C A (of_int v) = Ok c) vs cs)
  \/ (exists e before v after,
         vs = before ++ v :: after
         /\ compute_cps P C A (of_int v) = Raise e
         /\ comprehension (invoke P C A) vs = (Raise e, map Invoke before ++ [Invoke v])).
Proof.
  induction vs as [| v vs IH].
  - left. exists []. split; [reflexivity | constructor].
  - destruct (compute_cps P C A (of_int v)) as [c | e] eqn:E.
    + destruct IH as [(cs & Ec & HF) | (e & before & w & after & Evs & Ew & Ec)].
      * left. exists (c :: cs). split; [| now constructor].
        cbn [comprehension map]. rewrite (invoke_returns P C A v E), Ec.
        unfold bind, ret. simpl. now rewrite app_nil_r.
      * right. exists e, (v :: before), w, after.
        split; [now rewrite Evs |]. split; [exact Ew |].
        cbn [comprehension]. rewrite (invoke_returns P C A v E), Ec. reflexivity.
    + right. exists e, [], v, vs. split; [reflexivity |]. split; [exact E |].
      cbn [comprehension]. now rewrite (invoke_raises P C A v E).
Qed.

(** The sweep ends in one of four ways. *)
Lemma show_range_outcome (N_s : Z) (cps : num) (N_s_min N_s_max N_s_step : Q) :
  show_range P C A N_s cps N_s_min N_s_max N_s_step
  = (Ok tt, [StError invalid_range_error None])
  \/ show_range P C A N_s cps N_s_min N_s_max N_s_step
     = (Raise (ValueError range_error), [])
  \/ (exists e before v,
         compute_cps P C A (of_int v) = Raise e
         /\ show_range P C A N_s cps N_s_min N_s_max N_s_step
            = (Raise e, map Invoke before ++ [Invoke v]))
  \/ (exists vs cs,
         Forall2 (fun v c => compute_cps P C A (of_int v) = Ok c) vs cs
         /\ show_range P C A N_s cps N_s_min N_s_max N_s_step
            = (Ok tt, map Invoke vs ++ [StChart (combine vs cs) (N_s, cps)])).
Proof.
  unfold show_range.
  destruct (Qlt_bool N_s_min N_s_max && Qlt_bool (0 # 1) N_s_step); [| now left].
  destruct (py_range (py_int N_s_min) (py_int N_s_max + 1) (py_int N_s_step))
    as [vs | e] eqn:Er.
  - unfold lift, bind, plot_range.
    destruct (comprehension_outcome vs)
      as [(cs & Ec & HF) | (e & before & v & after & Evs & Ev & Ec)].
    + right. right. right. exists vs, cs. split; [exact HF |].
      unfold bind. rewrite Ec. reflexivity.
    + right. right. left. exists e, before, v. split; [exact Ev |].
      unfold bind. rewrite Ec. reflexivity.
  - right. left. apply py_range_exception in Er. subst e. reflexivity.
Qed.

End RunOutcome.

Section RunCases.

Context {num : Type} `{PyNum num}.

Variables (N_s : Z) (show_cps_range : bool) (N_s_min N_s_max N_s_step : Q).
Variable edited_df : DataFrame num.

Lemma main_empty :
  empty edited_df = true ->
  main N_s show_cps_range N_s_min N_s_max N_s_step edited_df
  = (Ok tt, [StError empty_error None]).
Proof. intros E. unfold main. now rewrite E. Qed.

Lemma main_not_numeric (e : exception) :
  empty edited_df = false -> extract edited_df = Raise e ->
  main N_s show_cps_range N_s_min N_s_max N_s_step edited_df
  = (Ok tt, [StError processing_error (Some e)]).
Proof. intros E Ex. unfold main. now rewrite E, Ex. Qed.

Lemma main_current_point_raises (P C A : list num) (e : exception) :
  empty edited_df = false -> extract edited_df = Ok (P, C, A) ->
  compute_cps P C A (of_int N_s) = Raise e ->
  main N_s show_cps_range N_s_min N_s_max N_s_step edited_df
  = (Ok tt, [Invoke N_s; StError calculation_error (Some e)]).
Proof.
  intros E Ex Ec. unfold main. rewrite E, Ex.
  now rewrite (invoke_raises P C A N_s Ec).
Qed.

End RunCases.

Section RunInvariants.

Context {num : Type} `{PyNum num}.

Lemma compute_cps_aligned_exception (P C A : list num) (N_s : num) (e : exception) :
  length P = length C -> length C = length A ->
  compute_cps P C A N_s = Raise e -> e = ZeroDivisionError.
Proof.
  intros HPC HCA. rewrite compute_cps_aligned by assumption.
  unfold truediv. destruct (is_zero N_s); simpl; [| discriminate].
  intros E. now inversion E.
Qed.

Lemma extract_one_length (df : DataFrame num) (P C A : list num) :
  extract df = Ok (P, C, A) -> length P = length C /\ length C = length A.
Proof.
  intros E. apply extract_aligned in E. destruct E as (EP & EC & EA).
  split; congruence.
Qed.

Lemma combine_fst_Forall2 {X Y : Type} (R : X -> Y -> Prop) (xs : list X) (ys : list Y) :
  Forall2 R xs ys ->
  map fst (combine xs ys) = xs /\ Forall (fun p => R (fst p) (snd p)) (combine xs ys).
Proof.
  induction 1 as [| x y xs ys Hxy HF [IH1 IH2]]; simpl.
  - split; [reflexivity | constructor].
  - split; [now rewrite IH1 | now constructor].
Qed.

Variables (N_s : Z) (show_cps_range : bool) (N_s_min N_s_max N_s_step : Q).
Variable edited_df : DataFrame num.

(** The sweep of a run that reached it: what [main] adds around it. *)
Lemma main_sweep_cases (P C A : list num) (cps : num) :
  empty edited_df = false -> extract edited_df = Ok (P, C, A) ->
  compute_cps P C A (of_int N_s) = Ok cps ->
  main N_s true N_s_min N_s_max N_s_step edited_df
  = (Ok tt, [Invoke N_s; StCps cps; StError invalid_range_error None])
  \/ main N_s true N_s_min N_s_max N_s_step edited_df
     = (Ok tt, [Invoke N_s; StCps cps;
                StError calculation_error (Some (ValueError range_error))])
  \/ (exists before v,
         main N_s true N_s_min N_s_max N_s_step edited_df
         = (Ok tt, Invoke N_s :: StCps cps :: map Invoke before
                   ++ [Invoke v; StError calculation_error (Some ZeroDivisionError)]))
  \/ (exists vs cs,
         Forall2 (fun v c => compute_cps P C A (of_int v) = Ok c) vs cs
         /\ main N_s true N_s_min N_s_max N_s_step edited_df
            = (Ok tt, Invoke N_s :: StCps cps :: map Invoke vs
                      ++ [StChart (combine vs cs) (N_s, cps)])).
Proof.
  intros Hne Hex Hcps.
  rewrite (@main_with_range _ _ edited_df P C A N_s cps Hne Hex Hcps).
  destruct (@extract_one_length edited_df P C A Hex) as [HPC HCA].
  destruct (show_range_outcome P C A N_s cps N_s_min N_s_max N_s_step)
    as [E | [E | [(e & before & v & Ev & E) | (vs & cs & HF & E)]]]; rewrite E.
  - now left.
  - right. now left.
  - right. right. left. exists before, v.
    rewrite (@compute_cps_aligned_exception P C A _ e HPC HCA Ev).
    now rewrite <- app_assoc.
  - right. right. right. exists vs, cs. now split.
Qed.

(** X3: a run of [main] never ends in an exception: whatever the widgets
    hold, the failures of the extraction, of the calculator, of [int] and
    of [range] are all caught and turned into a message. *)
Theorem main_never_raises :
  fst (main N_s show_cps_range N_s_min N_s_max N_s_step edited_df) = Ok tt.
Proof.
  destruct (empty edited_df) eqn:Hne.
  - now rewrite main_empty.
  - destruct (extract edited_df) as [[[P C] A] | e] eqn:Hex.
    + destruct (compute_cps P C A (of_int N_s)) as [cps | e] eqn:Hcps.
      * destruct show_cps_range.
        -- rewrite (@main_with_range _ _ edited_df P C A N_s cps Hne Hex Hcps).
           now destruct (show_range P C A N_s cps N_s_min N_s_max N_s_step) as [[[] | e] t].
        -- now rewrite (@main_single_point _ _ edited_df P C A N_s cps Hne Hex Hcps).
      * now rewrite (@main_current_point_raises _ _ N_s show_cps_range N_s_min N_s_max N_s_step edited_df P C A e Hne Hex Hcps).
    + now rewrite (@main_not_numeric _ _ N_s show_cps_range N_s_min N_s_max N_s_step edited_df e Hne Hex).
Qed.

(** X4: the messages a run of [main] shows through [st.error] are among
    five: the empty table, a cell that is not a number, a division by
    zero, a step that [range] refuses, and the invalid range.  In
    particular the length error of [compute_cps] is never shown, since the
    three lists [main] passes are columns of one table. *)
Theorem main_error_messages :
  Forall (fun report => In report reportable_errors)
         (errors (snd (main N_s show_cps_range N_s_min N_s_max N_s_step edited_df)))
  /\ ~ In (calculation_error, Some (ValueError length_error))
          (errors (snd (main N_s show_cps_range N_s_min N_s_max N_s_step edited_df))).
Proof.
  assert (Hlen : ~ In (calculation_error, Some (ValueError length_error))
                      reportable_errors).
  { unfold reportable_errors. simpl. intros [E | [E | [E | [E | [E | []]]]]];
      discriminate E. }
  assert (Hall : Forall (fun report => In report reportable_errors)
                   (errors (snd (main N_s show_cps_range N_s_min N_s_max N_s_step
                                      edited_df)))).
  { unfold reportable_errors.
    destruct (empty edited_df) eqn:Hne.
    - rewrite main_empty by assumption. simpl. repeat constructor.
    - destruct (extract edited_df) as [[[P C] A] | e] eqn:Hex.
      + destruct (@extract_one_length edited_df P C A Hex) as [HPC HCA].
        destruct (compute_cps P C A (of_int N_s)) as [cps | e] eqn:Hcps.
        * destruct show_cps_range.
          -- destruct (@main_sweep_cases P C A cps Hne Hex Hcps)
               as [E | [E | [(before & v & E) | (vs & cs & HF & E)]]]; rewrite E.
             ++ simpl. constructor; [simpl; tauto | constructor].
             ++ simpl. constructor; [simpl; tauto | constructor].
             ++ simpl. rewrite errors_app, errors_invokes. simpl.
                constructor; [simpl; tauto | constructor].
             ++ simpl. rewrite errors_app, errors_invokes. simpl. constructor.
          -- rewrite (@main_single_point _ _ edited_df P C A N_s cps Hne Hex Hcps). simpl. constructor.
        * rewrite (@main_current_point_raises _ _ N_s show_cps_range N_s_min N_s_max N_s_step edited_df P C A e Hne Hex Hcps).
          rewrite (@compute_cps_aligned_exception P C A _ e HPC HCA Hcps).
          simpl. constructor; [simpl; tauto | constructor].
      + rewrite (@main_not_numeric _ _ N_s show_cps_range N_s_min N_s_max N_s_step edited_df e Hne Hex).
        rewrite (@extract_exception _ edited_df e Hex).
        simpl. constructor; [simpl; tauto | constructor]. }
  split; [exact Hall |].
  intros Hin. apply Hlen. rewrite Forall_forall in Hall. now apply Hall.
Qed.

(** X5: a run of [main] shows at most one error message or one chart,
    never both, and the cost per search at most once; a chart is drawn
    only after the cost per search has been shown. *)
Theorem main_one_report :
  let t := snd (main N_s show_cps_range N_s_min N_s_max N_s_step edited_df) in
  (length (errors t) + length (charts t) <= 1)%nat
  /\ (length (shown t) <= 1)%nat
  /\ (length (charts t) <= length (shown t))%nat.
Proof.
  cbv zeta.
  destruct (empty edited_df) eqn:Hne.
  - rewrite main_empty by assumption. simpl. lia.
  - destruct (extract edited_df) as [[[P C] A] | e] eqn:Hex.
    + destruct (compute_cps P C A (of_int N_s)) as [cps | e] eqn:Hcps.
      * destruct show_cps_range.
        -- destruct (@main_sweep_cases P C A cps Hne Hex Hcps)
             as [E | [E | [(before & v & E) | (vs & cs & HF & E)]]]; rewrite E; simpl;
             rewrite ?errors_app, ?charts_app, ?shown_app,
                     ?errors_invokes, ?charts_invokes, ?shown_invokes; simpl; lia.
        -- rewrite (@main_single_point _ _ edited_df P C A N_s cps Hne Hex Hcps). simpl. lia.
      * rewrite (@main_current_point_raises _ _ N_s show_cps_range N_s_min N_s_max N_s_step edited_df P C A e Hne Hex Hcps). simpl. lia.
    + rewrite (@main_not_numeric _ _ N_s show_cps_range N_s_min N_s_max N_s_step edited_df e Hne Hex). simpl. lia.
Qed.

(** X6: the calculator is not invoked exactly when the table is turned
    away (it is empty, or a cell is not a number); in every other run the
    first invocation is at the search volume of the slider. *)
Theorem main_invocations :
  let t := snd (main N_s show_cps_range N_s_min N_s_max N_s_step edited_df) in
  (invocations t = []
   <-> (empty edited_df = true \/ exists e, extract edited_df = Raise e))
  /\ (invocations t <> [] -> hd 0%Z (invocations t) = N_s).
Proof.
  cbv zeta.
  destruct (empty edited_df) eqn:Hne.
  - rewrite main_empty by assumption. simpl. split; [| congruence].
    split; [now left | reflexivity].
  - destruct (extract edited_df) as [[[P C] A] | e] eqn:Hex.
    + assert (Hno : ~ (false = true \/ exists e, @Ok (list num * list num * list num) (P, C, A) = Raise e)).
      { intros [E | [e E]]; discriminate. }
      destruct (compute_cps P C A (of_int N_s)) as [cps | e] eqn:Hcps.
      * destruct show_cps_range.
        -- destruct (@main_sweep_cases P C A cps Hne Hex Hcps)
             as [E | [E | [(before & v & E) | (vs & cs & HF & E)]]]; rewrite E; simpl;
             (split; [split; [discriminate | intros F; now apply Hno in F] | reflexivity]).
        -- rewrite (@main_single_point _ _ edited_df P C A N_s cps Hne Hex Hcps). simpl.
           split; [split; [discriminate | intros F; now apply Hno in F] | reflexivity].
      * rewrite (@main_current_point_raises _ _ N_s show_cps_range N_s_min N_s_max N_s_step edited_df P C A e Hne Hex Hcps). simpl.
        split; [split; [discriminate | intros F; now apply Hno in F] | reflexivity].
    + rewrite (@main_not_numeric _ _ N_s show_cps_range N_s_min N_s_max N_s_step edited_df e Hne Hex). simpl.
      split; [| congruence]. split; [intros _; right; now exists e | reflexivity].
Qed.

(** X7: whenever a run of [main] draws a chart, every point of it pairs a
    search volume with what [compute_cps] returns there on the extracted
    lists, and the calculator was invoked exactly at the slider's search
    volume and then at the search volumes of the points, in order. *)
Theorem main_chart_points (P C A : list num) :
  extract edited_df = Ok (P, C, A) ->
  let t := snd (main N_s show_cps_range N_s_min N_s_max N_s_step edited_df) in
  Forall (fun plot_data =>
            Forall (fun point => compute_cps P C A (of_int (fst point)) = Ok (snd point))
                   plot_data
            /\ invocations t = N_s :: map fst plot_data)
         (charts t).
Proof.
  intros Hex. cbv zeta.
  destruct (empty edited_df) eqn:Hne.
  - rewrite main_empty by assumption. constructor.
  - destruct (compute_cps P C A (of_int N_s)) as [cps | e] eqn:Hcps.
    + destruct show_cps_range.
      * destruct (@main_sweep_cases P C A cps Hne Hex Hcps)
          as [E | [E | [(before & v & E) | (vs & cs & HF & E)]]]; rewrite E; simpl.
        -- constructor.
        -- constructor.
        -- rewrite charts_app, charts_invokes. simpl. constructor.
        -- rewrite charts_app, charts_invokes, invocations_app, invocations_invokes.
           simpl. destruct (combine_fst_Forall2 HF) as [Hfst Hall].
           constructor; [| constructor]. split; [exact Hall |].
           now rewrite Hfst, app_nil_r.
      * rewrite (@main_single_point _ _ edited_df P C A N_s cps Hne Hex Hcps). constructor.
    + rewrite (@main_current_point_raises _ _ N_s show_cps_range N_s_min N_s_max N_s_step edited_df P C A e Hne Hex Hcps). constructor.
Qed.

End RunInvariants.

Lemma main_chart_points_witness :
  extract Scenario.edited_df
  = Ok (Scenario.P_i_list, Scenario.C_i_list, Scenario.A_i_list)
  /\ length (charts (snd (main 5000 true (inject_Z 1000) (inject_Z 10000) (inject_Z 500)
                               Scenario.edited_df))) = 1%nat
  /\ Forall (fun plot_data =>
               Forall (fun point =>
                         compute_cps Scenario.P_i_list Scenario.C_i_list Scenario.A_i_list
                                     (of_int (fst point)) = Ok (snd point))
                      plot_data
               /\ invocations (snd (main 5000 true (inject_Z 1000) (inject_Z 10000)
                                         (inject_Z 500) Scenario.edited_df))
                  = 5000%Z :: map fst plot_data)
            (charts (snd (main 5000 true (inject_Z 1000) (inject_Z 10000) (inject_Z 500)
                               Scenario.edited_df))).
Proof.
  assert (Hex : extract Scenario.edited_df
                = Ok (Scenario.P_i_list, Scenario.C_i_list, Scenario.A_i_list))
    by reflexivity.
  split; [exact Hex | split; [vm_compute; reflexivity |]].
  exact (@main_chart_points Qc Qc_PyNum 5000 true (inject_Z 1000) (inject_Z 10000)
                            (inject_Z 500) Scenario.edited_df
                            Scenario.P_i_list Scenario.C_i_list Scenario.A_i_list Hex).
Defined.

(** ** Runs of [main] on a numeric table, with the slider at 1 or more *)

Lemma py_int_nonnegative (x : Q) : (0 <= x)%Q -> py_int x = Qfloor x.
Proof.
  intros Hx. rewrite py_int_integer_part. unfold integer_part.
  apply Qle_bool_iff in Hx. now rewrite Hx.
Qed.

Lemma py_int_fraction (x : Q) : (0 < x)%Q -> (x < 1)%Q -> py_int x = 0%Z.
Proof.
  intros Hpos Hsmall. rewrite py_int_nonnegative by now apply Qlt_le_weak.
  assert (H0 : (0 <= Qfloor x)%Z).
  { apply (Qfloor_resp_le 0 x). now apply Qlt_le_weak. }
  assert (H1 : (Qfloor x < 1)%Z).
  { rewrite Zlt_Qlt. eapply Qle_lt_trans; [apply Qfloor_le | exact Hsmall]. }
  lia.
Qed.

Lemma Qfloor_one_le (x : Q) : (1 <= x)%Q -> (1 <= Qfloor x)%Z.
Proof. intros Hx. exact (Qfloor_resp_le 1 x Hx). Qed.

Lemma arithmetic_sequence_bounds (first step : Z) (n : nat) :
  (0 < step)%Z ->
  Forall (fun v => first <= v <= first + (Z.of_nat n - 1) * step)%Z
         (arithmetic_sequence first step n).
Proof.
  intros Hst. apply Forall_forall. intros v Hv.
  apply arithmetic_sequence_In in Hv. destruct Hv as (k & Hk & ->). nia.
Qed.

Section ValidTable.

Context {num : Type} `{PyNum num}.

(** An [int] search volume is a zero divisor exactly when it is 0. *)
Hypothesis of_int_is_zero : forall z : Z, is_zero (of_int z) = (z =? 0)%Z.

Variables (edited_df : DataFrame num) (P C A : list num) (N_s : Z).

Hypothesis table_not_empty : empty edited_df = false.
Hypothesis table_numeric : extract edited_df = Ok (P, C, A).
Hypothesis slider : (1 <= N_s)%Z.

Lemma table_aligned : length P = length C /\ length C = length A.
Proof.
  apply extract_aligned in table_numeric.
  destruct table_numeric as (EP & EC & EA). split; congruence.
Qed.

Lemma volume_is_valid (v : Z) :
  v <> 0%Z -> compute_cps P C A (of_int v) = Ok (cps_at P C A v).
Proof.
  intros Hv. destruct table_aligned as [HPC HCA].
  apply compute_cps_value; trivial.
  rewrite of_int_is_zero. now apply Z.eqb_neq.
Qed.

Lemma current_point_is_valid :
  compute_cps P C A (of_int N_s) = Ok (cps_at P C A N_s).
Proof. apply volume_is_valid. lia. Qed.

(** A sweep over rational bounds whose truncated sequence avoids 0. *)
Lemma show_range_series (cps : num) (N_s_min N_s_max N_s_step : Q) :
  (N_s_min < N_s_max)%Q -> (0 < N_s_step)%Q ->
  (0 < py_int N_s_step)%Z -> (py_int N_s_min <= py_int N_s_max)%Z ->
  ~ In 0%Z (arithmetic_sequence
              (py_int N_s_min) (py_int N_s_step)
              (Z.to_nat ((py_int N_s_max - py_int N_s_min) / py_int N_s_step + 1))) ->
  show_range P C A N_s cps N_s_min N_s_max N_s_step
  = (Ok tt,
     map Invoke (arithmetic_sequence
                   (py_int N_s_min) (py_int N_s_step)
                   (Z.to_nat ((py_int N_s_max - py_int N_s_min) / py_int N_s_step + 1)))
     ++ [StChart
           (map (fun v => (v, cps_at P C A v))
                (arithmetic_sequence
                   (py_int N_s_min) (py_int N_s_step)
                   (Z.to_nat ((py_int N_s_max - py_int N_s_min) / py_int N_s_step + 1))))
           (N_s, cps)]).
Proof.
  intros Hlt Hst Hstep Hle Hzero.
  rewrite show_range_valid by assumption.
  rewrite py_range_ascending by lia.
  replace (py_int N_s_max + 1 - py_int N_s_min - 1)%Z
    with (py_int N_s_max - py_int N_s_min)%Z by lia.
  unfold lift, bind.
  rewrite (plot_range_ok P C A (cps_at P C A) N_s cps); [reflexivity |].
  intros v Hv. apply volume_is_valid. intros ->. now apply Hzero.
Qed.

(** X8: with a numeric table that is not empty, the slider at 1 or more
    and the sweep unticked, a run of [main] invokes the calculator once and
    shows the value of the formula at the slider's search volume, with no
    message; what the three number inputs of the sweep hold plays no
    part. *)
Theorem main_shows_cps (N_s_min N_s_max N_s_step : Q) :
  main N_s false N_s_min N_s_max N_s_step edited_df
  = (Ok tt, [Invoke N_s; StCps (cps_at P C A N_s)]).
Proof.
  exact (@main_single_point _ _ edited_df P C A N_s (cps_at P C A N_s)
                            table_not_empty table_numeric current_point_is_valid
                            N_s_min N_s_max N_s_step).
Qed.

(** X9: with the sweep ticked, min < max and a step strictly between 0
    and 1, the guard of the sweep lets the range through, [int] turns the
    step into 0, [range] refuses it, and the run shows the cost per search
    followed by the calculation error carrying the [ValueError] of
    [range]; no chart is drawn and the calculator is not invoked for the
    sweep. *)
Theorem main_fraction_step (N_s_min N_s_max N_s_step : Q) :
  (N_s_min < N_s_max)%Q -> (0 < N_s_step)%Q -> (N_s_step < 1)%Q ->
  main N_s true N_s_min N_s_max N_s_step edited_df
  = (Ok tt, [Invoke N_s; StCps (cps_at P C A N_s);
             StError calculation_error (Some (ValueError range_error))]).
Proof.
  intros Hlt Hst Hsmall.
  rewrite (@main_with_range _ _ edited_df P C A N_s (cps_at P C A N_s)
                            table_not_empty table_numeric current_point_is_valid).
  rewrite show_range_valid by assumption.
  rewrite (py_int_fraction Hst Hsmall). reflexivity.
Qed.

(** X10: with the sweep ticked, min at 1 or more, min < max and a step
    of 1 or more (integers or not), the run shows the cost per search,
    invokes the calculator once per term of the sequence
    floor(min), floor(min) + floor(step), ... up to floor(max), and draws
    one chart of these terms paired with the value of the formula there.
    The sequence is not empty, it starts at floor(min) and stays within
    floor(min) .. floor(max); no message is shown. *)
Theorem main_draws_chart (N_s_min N_s_max N_s_step : Q) :
  (1 <= N_s_min)%Q -> (N_s_min < N_s_max)%Q -> (1 <= N_s_step)%Q ->
  let values :=
    arithmetic_sequence
      (Qfloor N_s_min) (Qfloor N_s_step)
      (Z.to_nat ((Qfloor N_s_max - Qfloor N_s_min) / Qfloor N_s_step + 1)) in
  main N_s true N_s_min N_s_max N_s_step edited_df
  = (Ok tt,
     Invoke N_s :: StCps (cps_at P C A N_s) :: map Invoke values
     ++ [StChart (map (fun v => (v, cps_at P C A v)) values) (N_s, cps_at P C A N_s)])
  /\ hd 0%Z values = Qfloor N_s_min
  /\ Forall (fun v => Qfloor N_s_min <= v <= Qfloor N_s_max)%Z values
  /\ errors (snd (main N_s true N_s_min N_s_max N_s_step edited_df)) = [].
Proof.
  intros Hmin Hlt Hstep values.
  assert (Hmin0 : (0 <= N_s_min)%Q) by (eapply Qle_trans; [| exact Hmin]; discriminate).
  assert (Hmax0 : (0 <= N_s_max)%Q)
    by (eapply Qle_trans; [exact Hmin0 | now apply Qlt_le_weak]).
  assert (Hstep0 : (0 < N_s_step)%Q) by (eapply Qlt_le_trans; [| exact Hstep]; reflexivity).
  pose proof (Qfloor_one_le Hmin) as Hfmin.
  pose proof (Qfloor_one_le Hstep) as Hfstep.
  assert (Hfle : (Qfloor N_s_min <= Qfloor N_s_max)%Z)
    by (apply Qfloor_resp_le; now apply Qlt_le_weak).
  assert (Hq : (0 <= (Qfloor N_s_max - Qfloor N_s_min) / Qfloor N_s_step)%Z)
    by (apply Z.div_pos; lia).
  assert (Hbounds : Forall (fun v => Qfloor N_s_min <= v <= Qfloor N_s_max)%Z values).
  { apply Forall_forall. intros v Hv. unfold values in Hv.
    apply arithmetic_sequence_In in Hv. destruct Hv as (k & Hk & ->).
    pose proof (Z.mul_div_le (Qfloor N_s_max - Qfloor N_s_min) (Qfloor N_s_step)) as Hm.
    nia. }
  assert (Hseries :
            show_range P C A N_s (cps_at P C A N_s) N_s_min N_s_max N_s_step
            = (Ok tt,
               map Invoke values
               ++ [StChart (map (fun v => (v, cps_at P C A v)) values)
                           (N_s, cps_at P C A N_s)])).
  { unfold values.
    rewrite <- (py_int_nonnegative Hmin0), <- (py_int_nonnegative Hmax0),
      <- (py_int_nonnegative (Qlt_le_weak _ _ Hstep0)).
    apply show_range_series; trivial;
      rewrite ?(py_int_nonnegative Hmin0), ?(py_int_nonnegative Hmax0),
        ?(py_int_nonnegative (Qlt_le_weak _ _ Hstep0)); try lia.
    intros Hin. rewrite Forall_forall in Hbounds.
    specialize (Hbounds 0%Z Hin). lia. }
  assert (Hmain :
            main N_s true N_s_min N_s_max N_s_step edited_df
            = (Ok tt,
               Invoke N_s :: StCps (cps_at P C A N_s) :: map Invoke values
               ++ [StChart (map (fun v => (v, cps_at P C A v)) values)
                           (N_s, cps_at P C A N_s)])).
  { rewrite (@main_with_range _ _ edited_df P C A N_s (cps_at P C A N_s)
                              table_not_empty table_numeric current_point_is_valid).
    now rewrite Hseries. }
  split; [exact Hmain | split; [| split; [exact Hbounds |]]].
  - unfold values, arithmetic_sequence.
    replace (Z.to_nat ((Qfloor N_s_max - Qfloor N_s_min) / Qfloor N_s_step + 1))
      with (S (Z.to_nat ((Qfloor N_s_max - Qfloor N_s_min) / Qfloor N_s_step)))
      by lia.
    simpl. lia.
  - rewrite Hmain. simpl. now rewrite errors_app, errors_invokes.
Qed.


(** X17: the sweep does not ask for positive search volumes: with the
    sweep ticked and integers min < max < 0, step > 0, the run invokes the
    calculator at every term of min, min + step, ... up to max, all of
    them negative, and draws the chart of the values of the formula at
    these negative search volumes, with no message. *)
Theorem main_negative_sweep (mn mx st : Z) :
  (mn < mx)%Z -> (mx < 0)%Z -> (0 < st)%Z ->
  let values := arithmetic_sequence mn st (Z.to_nat ((mx - mn) / st + 1)) in
  main N_s true (inject_Z mn) (inject_Z mx) (inject_Z st) edited_df
  = (Ok tt,
     Invoke N_s :: StCps (cps_at P C A N_s) :: map Invoke values
     ++ [StChart (map (fun v => (v, cps_at P C A v)) values) (N_s, cps_at P C A N_s)])
  /\ Forall (fun v => (v < 0)%Z) values
  /\ values <> []
  /\ errors (snd (main N_s true (inject_Z mn) (inject_Z mx) (inject_Z st) edited_df))
     = [].
Proof.
  intros Hlt Hneg Hst values.
  assert (Hall : Forall (fun v => (v < 0)%Z) values).
  { apply Forall_forall. intros v Hv. unfold values in Hv.
    apply sweep_values_In in Hv; trivial. destruct Hv as (k & _ & _ & Hle). lia. }
  assert (Hseries :
            show_range P C A N_s (cps_at P C A N_s)
                       (inject_Z mn) (inject_Z mx) (inject_Z st)
            = (Ok tt,
               map Invoke values
               ++ [StChart (map (fun v => (v, cps_at P C A v)) values)
                           (N_s, cps_at P C A N_s)])).
  { pose proof (@show_range_series (cps_at P C A N_s)
                                   (inject_Z mn) (inject_Z mx) (inject_Z st)) as Hs.
    rewrite !py_int_inject_Z in Hs. apply Hs.
    - now rewrite <- Zlt_Qlt.
    - change 0%Q with (inject_Z 0). now rewrite <- Zlt_Qlt.
    - exact Hst.
    - lia.
    - intros Hin. rewrite Forall_forall in Hall.
      specialize (Hall 0%Z Hin). lia. }
  assert (Hmain :
            main N_s true (inject_Z mn) (inject_Z mx) (inject_Z st) edited_df
            = (Ok tt,
               Invoke N_s :: StCps (cps_at P C A N_s) :: map Invoke values
               ++ [StChart (map (fun v => (v, cps_at P C A v)) values)
                           (N_s, cps_at P C A N_s)])).
  { rewrite (@main_with_range _ _ edited_df P C A N_s (cps_at P C A N_s)
                              table_not_empty table_numeric current_point_is_valid).
    now rewrite Hseries. }
  split; [exact Hmain | split; [exact Hall | split]].
  - unfold values, arithmetic_sequence.
    assert (Hq : (0 <= (mx - mn) / st)%Z) by (apply Z.div_pos; lia).
    replace (Z.to_nat ((mx - mn) / st + 1)) with (S (Z.to_nat ((mx - mn) / st))) by lia.
    discriminate.
  - rewrite Hmain. simpl. now rewrite errors_app, errors_invokes.
Qed.

End ValidTable.


(** ** Runs of [main] on the scenario *)

Lemma main_shows_cps_witness :
  empty Scenario.edited_df = false
  /\ (1 <= 5000)%Z
  /\ main 5000 false (inject_Z 1000) (inject_Z 10000) (inject_Z 500) Scenario.edited_df
     = (Ok tt, [Invoke 5000;
                StCps (cps_at Scenario.P_i_list Scenario.C_i_list Scenario.A_i_list 5000)]).
Proof.
  assert (Hne : empty Scenario.edited_df = false) by reflexivity.
  assert (Hslider : (1 <= 5000)%Z) by discriminate.
  split; [exact Hne | split; [exact Hslider |]].
  exact (@main_shows_cps Qc Qc_PyNum Qc_of_int_is_zero Scenario.edited_df
                         Scenario.P_i_list Scenario.C_i_list Scenario.A_i_list 5000
                         Hne eq_refl Hslider
                         (inject_Z 1000) (inject_Z 10000) (inject_Z 500)).
Defined.

Lemma main_fraction_step_witness :
  (inject_Z 1000 < inject_Z 10000)%Q /\ (0 < 0.5)%Q /\ (0.5 < 1)%Q
  /\ main 5000 true (inject_Z 1000) (inject_Z 10000) 0.5 Scenario.edited_df
     = (Ok tt, [Invoke 5000;
                StCps (cps_at Scenario.P_i_list Scenario.C_i_list Scenario.A_i_list 5000);
                StError calculation_error (Some (ValueError range_error))]).
Proof.
  assert (Hne : empty Scenario.edited_df = false) by reflexivity.
  assert (Hslider : (1 <= 5000)%Z) by discriminate.
  assert (Hlt : (inject_Z 1000 < inject_Z 10000)%Q) by reflexivity.
  assert (Hst : (0 < 0.5)%Q) by reflexivity.
  assert (Hsmall : (0.5 < 1)%Q) by reflexivity.
  split; [exact Hlt | split; [exact Hst | split; [exact Hsmall |]]].
  exact (@main_fraction_step Qc Qc_PyNum Qc_of_int_is_zero Scenario.edited_df
                             Scenario.P_i_list Scenario.C_i_list Scenario.A_i_list 5000
                             Hne eq_refl Hslider
                             (inject_Z 1000) (inject_Z 10000) 0.5 Hlt Hst Hsmall).
Defined.

Lemma main_draws_chart_witness :
  (1 <= 1000.9)%Q /\ (1000.9 < 3000.2)%Q /\ (1 <= 500.7)%Q
  /\ arithmetic_sequence (Qfloor 1000.9) (Qfloor 500.7)
       (Z.to_nat ((Qfloor 3000.2 - Qfloor 1000.9) / Qfloor 500.7 + 1))
     = [1000; 1500; 2000; 2500; 3000]%Z
  /\ errors (snd (main 5000 true 1000.9 3000.2 500.7 Scenario.edited_df)) = [].
Proof.
  assert (Hne : empty Scenario.edited_df = false) by reflexivity.
  assert (Hslider : (1 <= 5000)%Z) by discriminate.
  assert (Hmin : (1 <= 1000.9)%Q) by discriminate.
  assert (Hlt : (1000.9 < 3000.2)%Q) by reflexivity.
  assert (Hstep : (1 <= 500.7)%Q) by discriminate.
  split; [exact Hmin | split; [exact Hlt | split; [exact Hstep | split; [reflexivity |]]]].
  exact (proj2 (proj2 (proj2
           (@main_draws_chart Qc Qc_PyNum Qc_of_int_is_zero Scenario.edited_df
                              Scenario.P_i_list Scenario.C_i_list Scenario.A_i_list 5000
                              Hne eq_refl Hslider 1000.9 3000.2 500.7 Hmin Hlt Hstep)))).
Defined.


(** ** The formula on exact numbers: order, sums and scale *)

Section CalculatorProducts.

Context {num : Type} `{PyNum num}.

Lemma products_app (C1 A1 C2 A2 : list num) :
  length C1 = length A1 ->
  products (C1 ++ C2) (A1 ++ A2) = products C1 A1 ++ products C2 A2.
Proof.
  revert A1. induction C1 as [| c C1 IH]; intros [| a A1] Hlen;
    simpl in *; try discriminate; [reflexivity |].
  unfold products in *. simpl. f_equal. apply IH. congruence.
Qed.

Lemma products_map_l (f : num -> num) (C A : list num) :
  products (map f C) A = map (fun '(c, a) => mul (f c) a) (combine C A).
Proof.
  unfold products. revert A. induction C as [| c C IH]; intros [| a A];
    simpl; try reflexivity.
  now rewrite IH.
Qed.

End CalculatorProducts.

Section ExactOrder.

Local Open Scope Qc_scope.

Lemma Qc_nonneg_plus (a b : Qc) : 0 <= a -> 0 <= b -> 0 <= a + b.
Proof.
  intros Ha Hb. rewrite <- (Qcplus_0_l 0). now apply Qcplus_le_compat.
Qed.

Lemma Qc_nonneg_mult (a b : Qc) : 0 <= a -> 0 <= b -> 0 <= a * b.
Proof.
  intros Ha Hb. rewrite <- (Qcmult_0_l b). now apply Qcmult_le_compat_r.
Qed.

Lemma Qc_nonneg_div (x N : Qc) : 0 <= x -> 0 < N -> 0 <= x / N.
Proof.
  intros Hx HN. apply (Qcmult_lt_0_le_reg_r 0 (x / N) N HN).
  rewrite Qcmult_0_l.
  replace (x / N * N) with x; [exact Hx |].
  field. apply not_eq_sym. now apply Qclt_not_eq.
Qed.

Lemma Qc_pos_mult (a b : Qc) : 0 < a -> 0 < b -> 0 < a * b.
Proof.
  intros Ha Hb. rewrite <- (Qcmult_0_l b). now apply Qcmult_lt_compat_r.
Qed.

(** A larger divisor gives a smaller share of a non-negative total. *)
Lemma Qc_div_antitone (x N N' : Qc) :
  0 <= x -> 0 < N -> N <= N' -> x / N' <= x / N.
Proof.
  intros Hx HN Hle.
  assert (HN' : 0 < N') by (eapply Qclt_le_trans; eassumption).
  assert (HN0 : N <> 0) by (apply not_eq_sym; now apply Qclt_not_eq).
  assert (HN'0 : N' <> 0) by (apply not_eq_sym; now apply Qclt_not_eq).
  apply (Qcmult_lt_0_le_reg_r (x / N') (x / N) (N * N') (Qc_pos_mult HN HN')).
  replace (x / N' * (N * N')) with (N * x) by (field; exact HN'0).
  replace (x / N * (N * N')) with (N' * x) by (field; exact HN0).
  now apply Qcmult_le_compat_r.
Qed.

Lemma fold_left_nonneg (xs : list Qc) (acc : Qc) :
  Forall (fun x => 0 <= x) xs -> 0 <= acc -> 0 <= fold_left Qcplus xs acc.
Proof.
  revert acc. induction xs as [| x xs IH]; intros acc Hxs Hacc; simpl.
  - exact Hacc.
  - inversion Hxs; subst. apply IH; [assumption |]. now apply Qc_nonneg_plus.
Qed.

Lemma py_sum_nonneg (xs : list Qc) : Forall (fun x => 0 <= x) xs -> 0 <= py_sum xs.
Proof.
  intros Hxs. unfold py_sum. apply fold_left_nonneg; [exact Hxs |]. discriminate.
Qed.

Lemma products_nonneg (C A : list Qc) :
  Forall (fun x => 0 <= x) C -> Forall (fun x => 0 <= x) A ->
  Forall (fun x => 0 <= x) (products C A).
Proof.
  intros HC. revert A. induction HC as [| c C Hc HC IH]; intros A HA.
  - constructor.
  - destruct HA as [| a A Ha HA]; [constructor |].
    unfold products. simpl. constructor.
    + now apply Qc_nonneg_mult.
    + now apply IH.
Qed.

Lemma fold_left_from (xs : list Qc) (acc : Qc) :
  fold_left Qcplus xs acc = acc + fold_left Qcplus xs 0.
Proof.
  revert acc. induction xs as [| x xs IH]; intros acc; simpl.
  - ring.
  - rewrite IH, (IH (0 + x)). ring.
Qed.

Lemma py_sum_app (xs ys : list Qc) : py_sum (xs ++ ys) = py_sum xs + py_sum ys.
Proof.
  unfold py_sum. simpl. rewrite fold_left_app. apply fold_left_from.
Qed.

Lemma Qc_positive_not_zero (N : Qc) : 0 < N -> is_zero N = false.
Proof.
  intros HN. apply Qc_is_zero_false. apply not_eq_sym. now apply Qclt_not_eq.
Qed.

(** X13: with fixed costs that are not negative, the cost per search does
    not grow with the search volume: for aligned lists and search volumes
    0 < N <= N', the result at N' is at most the result at N (the same
    variable term plus a smaller share of the fixed costs). *)
Theorem compute_cps_decreasing (P C A : list Qc) (N N' : Qc) :
  Forall (fun p => 0 <= p) P ->
  length P = length C -> length C = length A ->
  0 < N -> N <= N' ->
  compute_cps P C A N = Ok (py_sum P / N + py_sum (products C A))
  /\ compute_cps P C A N' = Ok (py_sum P / N' + py_sum (products C A))
  /\ py_sum P / N' + py_sum (products C A) <= py_sum P / N + py_sum (products C A).
Proof.
  intros HP HPC HCA HN Hle.
  assert (HN' : 0 < N') by (eapply Qclt_le_trans; eassumption).
  split; [| split].
  - rewrite compute_cps_value; trivial. now apply Qc_positive_not_zero.
  - rewrite compute_cps_value; trivial. now apply Qc_positive_not_zero.
  - apply Qcplus_le_compat; [| apply Qcle_refl].
    apply Qc_div_antitone; trivial. now apply py_sum_nonneg.
Qed.

(** X14: with costs and call counts that are not negative and a positive
    search volume, the result of [compute_cps] is not negative and is at
    least the variable term, the sum of cost per call times calls per
    search. *)
Theorem compute_cps_bounds (P C A : list Qc) (N : Qc) :
  Forall (fun p => 0 <= p) P -> Forall (fun c => 0 <= c) C -> Forall (fun a => 0 <= a) A ->
  length P = length C -> length C = length A ->
  0 < N ->
  exists cps,
    compute_cps P C A N = Ok cps
    /\ 0 <= py_sum (products C A)
    /\ py_sum (products C A) <= cps
    /\ 0 <= cps.
Proof.
  intros HP HC HA HPC HCA HN.
  exists (py_sum P / N + py_sum (products C A)).
  assert (Hfixed : 0 <= py_sum P / N)
    by (apply Qc_nonneg_div; [now apply py_sum_nonneg | exact HN]).
  assert (Hvar : 0 <= py_sum (products C A))
    by (apply py_sum_nonneg; now apply products_nonneg).
  split; [| split; [exact Hvar | split]].
  - rewrite compute_cps_value; trivial. now apply Qc_positive_not_zero.
  - rewrite <- (Qcplus_0_l (py_sum (products C A))) at 1.
    apply Qcplus_le_compat; [exact Hfixed | apply Qcle_refl].
  - now apply Qc_nonneg_plus.
Qed.

(** X15: the cost per search of two collections of platforms put together
    is the sum of their costs per search at the same search volume: for
    aligned lists P1, C1, A1 and P2, C2, A2 and a search volume that is not
    zero, [compute_cps] on the concatenated lists returns the sum of what
    it returns on each. *)
Theorem compute_cps_concatenation (P1 C1 A1 P2 C2 A2 : list Qc) (N : Qc) :
  length P1 = length C1 -> length C1 = length A1 ->
  length P2 = length C2 -> length C2 = length A2 ->
  N <> 0 ->
  exists cps1 cps2,
    compute_cps P1 C1 A1 N = Ok cps1
    /\ compute_cps P2 C2 A2 N = Ok cps2
    /\ compute_cps (P1 ++ P2) (C1 ++ C2) (A1 ++ A2) N = Ok (cps1 + cps2).
Proof.
  intros HPC1 HCA1 HPC2 HCA2 HN.
  assert (HN0 : is_zero N = false) by now apply Qc_is_zero_false.
  exists (py_sum P1 / N + py_sum (products C1 A1)),
         (py_sum P2 / N + py_sum (products C2 A2)).
  split; [| split].
  - now rewrite compute_cps_value.
  - now rewrite compute_cps_value.
  - rewrite compute_cps_value; trivial.
    + rewrite (products_app C1 A1 C2 A2 HCA1), !py_sum_app.
      simpl. f_equal. field. exact HN.
    + rewrite !length_app. congruence.
    + rewrite !length_app. congruence.
Qed.

(** X16: multiplying every fixed cost and every cost per call by one
    factor k (a change of currency, say) multiplies the cost per search by
    k: for aligned lists and a search volume that is not zero,
    [compute_cps] on the scaled costs returns k times what it returns on
    the original ones. *)
Theorem compute_cps_scaled (k : Qc) (P C A : list Qc) (N : Qc) :
  length P = length C -> length C = length A -> N <> 0 ->
  exists cps,
    compute_cps P C A N = Ok cps
    /\ compute_cps (map (Qcmult k) P) (map (Qcmult k) C) A N = Ok (k * cps).
Proof.
  intros HPC HCA HN.
  assert (HN0 : is_zero N = false) by now apply Qc_is_zero_false.
  exists (py_sum P / N + py_sum (products C A)).
  split; [now rewrite compute_cps_value |].
  rewrite compute_cps_value; trivial.
  - assert (Ep : products (map (Qcmult k) C) A = map (Qcmult k) (products C A)).
    { rewrite products_map_l. unfold products. rewrite map_map.
      apply map_ext. intros [c a]. simpl. ring. }
    rewrite Ep, !py_sum_scaled. simpl. f_equal. field. exact HN.
  - now rewrite !length_map.
  - now rewrite length_map.
Qed.

End ExactOrder.

Lemma scenario_costs_nonnegative :
  Forall (fun p => (0 <= p)%Qc) Scenario.P_i_list
  /\ Forall (fun c => (0 <= c)%Qc) Scenario.C_i_list
  /\ Forall (fun a => (0 <= a)%Qc) Scenario.A_i_list.
Proof. repeat split; repeat constructor; discriminate. Defined.

Lemma compute_cps_decreasing_witness :
  (0 < Q2Qc 5000)%Qc /\ (Q2Qc 5000 <= Q2Qc 10000)%Qc
  /\ (py_sum Scenario.P_i_list / Q2Qc 10000
      + py_sum (products Scenario.C_i_list Scenario.A_i_list)
      <= py_sum Scenario.P_i_list / Q2Qc 5000
         + py_sum (products Scenario.C_i_list Scenario.A_i_list))%Qc.
Proof.
  assert (HN : (0 < Q2Qc 5000)%Qc) by reflexivity.
  assert (Hle : (Q2Qc 5000 <= Q2Qc 10000)%Qc) by discriminate.
  split; [exact HN | split; [exact Hle |]].
  exact (proj2 (proj2
           (@compute_cps_decreasing Scenario.P_i_list Scenario.C_i_list Scenario.A_i_list
                                    (Q2Qc 5000) (Q2Qc 10000)
                                    (proj1 scenario_costs_nonnegative)
                                    eq_refl eq_refl HN Hle))).
Defined.

Lemma compute_cps_bounds_witness :
  (0 < Scenario.searchVolume)%Qc
  /\ exists cps,
       compute_cps Scenario.P_i_list Scenario.C_i_list Scenario.A_i_list
                   Scenario.searchVolume = Ok cps
       /\ (0 <= py_sum (products Scenario.C_i_list Scenario.A_i_list))%Qc
       /\ (py_sum (products Scenario.C_i_list Scenario.A_i_list) <= cps)%Qc
       /\ (0 <= cps)%Qc.
Proof.
  assert (HN : (0 < Scenario.searchVolume)%Qc) by reflexivity.
  split; [exact HN |].
  exact (@compute_cps_bounds Scenario.P_i_list Scenario.C_i_list Scenario.A_i_list
                             Scenario.searchVolume
                             (proj1 scenario_costs_nonnegative)
                             (proj1 (proj2 scenario_costs_nonnegative))
                             (proj2 (proj2 scenario_costs_nonnegative))
                             eq_refl eq_refl HN).
Defined.

Lemma compute_cps_concatenation_witness :
  Scenario.searchVolume <> Q2Qc 0
  /\ exists cps1 cps2,
       compute_cps Scenario.P_i_list Scenario.C_i_list Scenario.A_i_list
                   Scenario.searchVolume = Ok cps1
       /\ compute_cps [Q2Qc 25] [Q2Qc 0] [Q2Qc 0] Scenario.searchVolume = Ok cps2
       /\ compute_cps (Scenario.P_i_list ++ [Q2Qc 25]) (Scenario.C_i_list ++ [Q2Qc 0])
                      (Scenario.A_i_list ++ [Q2Qc 0]) Scenario.searchVolume
          = Ok (cps1 + cps2)%Qc.
Proof.
  assert (HN : Scenario.searchVolume <> Q2Qc 0) by discriminate.
  split; [exact HN |].
  exact (@compute_cps_concatenation
           Scenario.P_i_list Scenario.C_i_list Scenario.A_i_list
           [Q2Qc 25] [Q2Qc 0] [Q2Qc 0] Scenario.searchVolume
           eq_refl eq_refl eq_refl eq_refl HN).
Defined.

Lemma compute_cps_scaled_witness :
  Scenario.searchVolume <> Q2Qc 0
  /\ exists cps,
       compute_cps Scenario.P_i_list Scenario.C_i_list Scenario.A_i_list
                   Scenario.searchVolume = Ok cps
       /\ compute_cps (map (Qcmult (Q2Qc 0.92)) Scenario.P_i_list)
                      (map (Qcmult (Q2Qc 0.92)) Scenario.C_i_list)
                      Scenario.A_i_list Scenario.searchVolume
          = Ok (Q2Qc 0.92 * cps)%Qc.
Proof.
  assert (HN : Scenario.searchVolume <> Q2Qc 0) by discriminate.
  split; [exact HN |].
  exact (@compute_cps_scaled (Q2Qc 0.92) Scenario.P_i_list Scenario.C_i_list
                             Scenario.A_i_list Scenario.searchVolume
                             eq_refl eq_refl HN).
Defined.

Lemma main_negative_sweep_witness :
  (-1000 < -500)%Z /\ (-500 < 0)%Z /\ (0 < 250)%Z
  /\ arithmetic_sequence (-1000) 250 (Z.to_nat ((-500 - -1000) / 250 + 1))
     = [-1000; -750; -500]%Z
  /\ errors (snd (main 5000 true (inject_Z (-1000)) (inject_Z (-500)) (inject_Z 250)
                       Scenario.edited_df)) = [].
Proof.
  assert (Hne : empty Scenario.edited_df = false) by reflexivity.
  assert (Hslider : (1 <= 5000)%Z) by discriminate.
  assert (Hlt : (-1000 < -500)%Z) by reflexivity.
  assert (Hneg : (-500 < 0)%Z) by reflexivity.
  assert (Hst : (0 < 250)%Z) by reflexivity.
  split; [exact Hlt | split; [exact Hneg | split; [exact Hst | split; [reflexivity |]]]].
  exact (proj2 (proj2 (proj2
           (@main_negative_sweep Qc Qc_PyNum Qc_of_int_is_zero Scenario.edited_df
                                 Scenario.P_i_list Scenario.C_i_list Scenario.A_i_list
                                 5000 Hne eq_refl Hslider (-1000) (-500) 250
                                 Hlt Hneg Hst)))).
Defined.
